(** * Security Monitor: the duty-shift timer of the guard console

    A shallow embedding of [assets/js/security/security.monitor.js]: the
    [SecurityMonitor] singleton, the part of the page it reads and writes
    (local storage, the timer and modal elements, the registered interval)
    and the handlers that [bindEvents] installs.  Every method of the object
    is a function from one state of the page to the next; each call of
    [new Date()] is an explicit clock reading passed to the function. *)

From Stdlib Require Import ZArith String Ascii List Lia Bool.
From stdpp Require Import gmap strings list fin_maps pretty.

Local Open Scope string_scope.
Local Open Scope list_scope.
Local Open Scope Z_scope.

(** ** JavaScript numbers

    Every number the timer handles is a millisecond count: a clock reading,
    a difference of two readings, the shift length.  Those are integers far
    below 2^53, where IEEE doubles are exact, so a number is an integer or
    [NaN] (the time value of an invalid [Date]). *)

Module JS.

Inductive number : Type :=
  | NaN
  | Num (z : Z).

#[global] Instance number_eq_dec : EqDecision number.
Proof. solve_decision. Defined.

(** [a - b] *)
Definition sub (a b : number) : number :=
  match a, b with
  | Num x, Num y => Num (x - y)
  | _, _ => NaN
  end.

(** [a + b] *)
Definition add (a b : number) : number :=
  match a, b with
  | Num x, Num y => Num (x + y)
  | _, _ => NaN
  end.

(** [Math.max(a, b)]: [NaN] as soon as one argument is. *)
Definition Math_max (a b : number) : number :=
  match a, b with
  | Num x, Num y => Num (Z.max x y)
  | _, _ => NaN
  end.

(** [a % d] for a literal [d]: the remainder takes the sign of the dividend. *)
Definition rem (a : number) (d : Z) : number :=
  match a with
  | Num x => if decide (d = 0) then NaN else Num (Z.rem x d)
  | NaN => NaN
  end.

(** [Math.floor(a / d)] for a literal [d]; the source only divides by the
    nonzero constants 3600000, 60000 and 1000. *)
Definition floor_div (a : number) (d : Z) : number :=
  match a with
  | Num x => if decide (d = 0) then NaN else Num (x / d)
  | NaN => NaN
  end.

(** [a === b] on numbers: [NaN] equals nothing, itself included. *)
Definition strict_eq (a b : number) : bool :=
  match a, b with
  | Num x, Num y => bool_decide (x = y)
  | _, _ => false
  end.

(** [a <= b] and [a > b]: false when an operand is [NaN]. *)
Definition le (a b : number) : bool :=
  match a, b with
  | Num x, Num y => bool_decide (x <= y)
  | _, _ => false
  end.

Definition gt (a b : number) : bool :=
  match a, b with
  | Num x, Num y => bool_decide (x > y)
  | _, _ => false
  end.

(** [n.toString()]: decimal digits, a leading minus sign, or ["NaN"]
    (integers switch to exponent notation only from 10^21 on). *)
Definition toString (n : number) : string :=
  match n with
  | Num x => pretty x
  | NaN => "NaN"
  end.

(** [s.padStart(n, c)] for a one-character pad string [c]. *)
Definition padStart (n : nat) (c : ascii) (s : string) : string :=
  String.concat "" (replicate (n - String.length s) (String c EmptyString)) +:+ s.

(** [parts.join(sep)] *)
Definition join (sep : string) (parts : list string) : string :=
  String.concat sep parts.

(** A string is truthy unless it is empty; [null] is falsy. *)
Definition truthy (v : option string) : bool :=
  match v with
  | Some s => negb (bool_decide (s = ""))
  | None => false
  end.

End JS.

Export JS(number, NaN, Num).

(** ** Dates

    A [Date] is its time value: milliseconds since the epoch, or [NaN] for
    an invalid date.  The two built-ins the monitor calls on dates belong to
    the host, not to the repository; the development is parametric in them
    and, for closed examples, instantiates them with the ECMAScript
    date-time interchange format, for which every valid time value is
    shown to read back from its ISO string. *)

Class DateHost : Type := {
  (** time value of [new Date(s)] *)
  Date_parse : string -> number;
  (** [d.toISOString()] of the valid date with time value [t] *)
  toISOString : Z -> string
}.

Module ISO8601.

Definition msPerDay : Z := 86400000.

(** Days since the epoch of a proleptic Gregorian date. *)
Definition days_from_civil (y m d : Z) : Z :=
  let y' := if decide (m <= 2) then y - 1 else y in
  let era := y' / 400 in
  let yoe := y' - era * 400 in
  let mp := if decide (m <= 2) then m + 9 else m - 3 in
  let doy := (153 * mp + 2) / 5 + d - 1 in
  let doe := yoe * 365 + yoe / 4 - yoe / 100 + doy in
  era * 146097 + doe - 719468.

(** The proleptic Gregorian date (year, month, day) of a day number. *)
Definition civil_from_days (z : Z) : Z * Z * Z :=
  let z' := z + 719468 in
  let era := z' / 146097 in
  let doe := z' - era * 146097 in
  let yoe := (doe - doe / 1460 + doe / 36524 - doe / 146096) / 365 in
  let doy := doe - (365 * yoe + yoe / 4 - yoe / 100) in
  let mp := (5 * doy + 2) / 153 in
  let d := doy - (153 * mp + 2) / 5 + 1 in
  let m := if decide (mp < 10) then mp + 3 else mp - 9 in
  let y := yoe + era * 400 in
  (if decide (m <= 2) then y + 1 else y, m, d).

Definition digit (n : Z) : ascii := ascii_of_nat (48 + Z.to_nat (n mod 10)).

(** The [w] low decimal digits of [n], most significant first. *)
Fixpoint digits (w : nat) (n : Z) : string :=
  match w with
  | O => ""
  | S w' => digits w' (n / 10) +:+ String (digit n) ""
  end.

Definition year_string (y : Z) : string :=
  if decide (0 <= y <= 9999) then digits 4 y
  else if decide (y < 0) then "-" +:+ digits 6 (- y)
  else "+" +:+ digits 6 y.

Definition format (t : Z) : string :=
  let '(y, m, d) := civil_from_days (t / msPerDay) in
  let r := t mod msPerDay in
  year_string y +:+ "-" +:+ digits 2 m +:+ "-" +:+ digits 2 d +:+ "T"
    +:+ digits 2 (r / 3600000) +:+ ":" +:+ digits 2 (r / 60000 mod 60) +:+ ":"
    +:+ digits 2 (r / 1000 mod 60) +:+ "." +:+ digits 3 (r mod 1000) +:+ "Z".

Definition digit_value (c : ascii) : option Z :=
  let n := Z.of_nat (nat_of_ascii c) in
  if decide (48 <= n <= 57) then Some (n - 48) else None.

(** Reads exactly [w] decimal digits, returns their value and the rest. *)
Fixpoint read_digits (w : nat) (acc : Z) (s : string) : option (Z * string) :=
  match w with
  | O => Some (acc, s)
  | S w' =>
      match s with
      | String c s' =>
          match digit_value c with
          | Some v => read_digits w' (10 * acc + v) s'
          | None => None
          end
      | EmptyString => None
      end
  end.

Definition expect (c : ascii) (s : string) : option string :=
  match s with
  | String c' s' => if decide (c = c') then Some s' else None
  | EmptyString => None
  end.

Definition read_year (s : string) : option (Z * string) :=
  match s with
  | String "+" s' => read_digits 6 0 s'
  | String "-" s' =>
      match read_digits 6 0 s' with
      | Some (y, r) => if decide (y = 0) then None else Some (- y, r)
      | None => None
      end
  | _ => read_digits 4 0 s
  end.

Definition is_leap (y : Z) : bool :=
  bool_decide (y mod 4 = 0) && (negb (bool_decide (y mod 100 = 0)) || bool_decide (y mod 400 = 0)).

Definition days_in_month (y m : Z) : Z :=
  if decide (m = 2) then (if is_leap y then 29 else 28)
  else if decide (m = 4 \/ m = 6 \/ m = 9 \/ m = 11) then 30
  else 31.

(** The complete form [YYYY-MM-DDTHH:mm:ss.sssZ] (also with an expanded
    year), which is what [format] writes.  Anything else is rejected: what
    an engine does with other strings is implementation-defined. *)
Definition parse (s : string) : number :=
  let result :=
    '(y, s) ← read_year s; s ← expect "-" s;
    '(m, s) ← read_digits 2 0 s; s ← expect "-" s;
    '(d, s) ← read_digits 2 0 s; s ← expect "T" s;
    '(hh, s) ← read_digits 2 0 s; s ← expect ":" s;
    '(mm, s) ← read_digits 2 0 s; s ← expect ":" s;
    '(ss, s) ← read_digits 2 0 s; s ← expect "." s;
    '(ms, s) ← read_digits 3 0 s; s ← expect "Z" s;
    if decide (s = "" /\ 1 <= m <= 12 /\ 1 <= d <= days_in_month y m
               /\ hh <= 23 /\ mm <= 59 /\ ss <= 59)
    then Some (days_from_civil y m d * msPerDay
               + hh * 3600000 + mm * 60000 + ss * 1000 + ms)
    else None in
  match result with
  | Some t => if decide (Z.abs t <= 8640000000000000) then Num t else NaN
  | None => NaN
  end.

#[global] Instance host : DateHost := {| Date_parse := parse; toISOString := format |}.

End ISO8601.

(** ** The page

    The state the monitor lives in: the [SecurityMonitor] object itself,
    [localStorage], the elements that [getElementById] finds, the theme
    attribute of the root element, the intervals registered with
    [setInterval], the navigation target once the page is being left, and
    the effects the page has had on its user, oldest first.

    The model of the document carries the elements of the duty timer and of
    the end-of-shift modal.  Elements reached through class selectors and
    nodes created at run time (camera tiles, notification items, popups,
    counters) are not carried: a handler is embedded by what it does to the
    object, to local storage, to the intervals and to the elements carried.
    Calls of [console.log] are left out. *)

Record Element : Type := {
  textContent : string;
  classList : list string;
  style : gmap string string
}.

(** [el.textContent = s] *)
Definition set_textContent (s : string) (el : Element) : Element :=
  {| textContent := s; classList := classList el; style := style el |}.

(** [el.classList.add(c)]: a token list holds each token once. *)
Definition classList_add (c : string) (el : Element) : Element :=
  {| textContent := textContent el;
     classList := if decide (c ∈ classList el) then classList el else classList el ++ [c];
     style := style el |}.

(** [el.classList.remove(c)] *)
Definition classList_remove (c : string) (el : Element) : Element :=
  {| textContent := textContent el;
     classList := filter (λ c', c' ≠ c) (classList el);
     style := style el |}.

(** [el.style.setProperty(k, v)] *)
Definition style_setProperty (k v : string) (el : Element) : Element :=
  {| textContent := textContent el; classList := classList el;
     style := <[k := v]> (style el) |}.

(** The [selectedCamera] field starts as the number 1 and is overwritten
    with the [data-cam] string of the tile clicked. *)
Inductive CameraId : Type :=
  | CamNumber (n : Z)
  | CamString (s : string).

(** The fields of the [SecurityMonitor] object ([null] is [None]). *)
Record Monitor : Type := {
  dutyStartTime : option number;
  dutyTimerInterval : option nat;
  selectedCamera : CameraId;
  shiftDuration : Z;
  soundEnabled : bool
}.

(** The object literal as the script declares it. *)
Definition SecurityMonitor : Monitor :=
  {| dutyStartTime := None;
     dutyTimerInterval := None;
     selectedCamera := CamNumber 1;
     shiftDuration := 8 * 60 * 60 * 1000;
     soundEnabled := true |}.

Inductive Callback : Type :=
  | UpdateDutyTimer
  | UpdateTimestamp.

Inductive Effect : Type :=
  | ShowEndOfShiftModal     (** a call of [showEndOfShiftModal] *)
  | Alert (msg : string)
  | Navigate (url : string).

#[global] Instance Effect_eq_dec : EqDecision Effect.
Proof. solve_decision. Defined.

Record Page : Type := {
  this : Monitor;
  localStorage : gmap string string;
  document : gmap string Element;
  theme : option string;
  intervals : gmap nat Callback;
  next_interval : nat;
  location : option string;
  trace : list Effect
}.

Definition with_this (f : Monitor -> Monitor) (p : Page) : Page :=
  {| this := f (this p); localStorage := localStorage p; document := document p;
     theme := theme p; intervals := intervals p; next_interval := next_interval p;
     location := location p; trace := trace p |}.

Definition with_localStorage (f : gmap string string -> gmap string string) (p : Page) : Page :=
  {| this := this p; localStorage := f (localStorage p); document := document p;
     theme := theme p; intervals := intervals p; next_interval := next_interval p;
     location := location p; trace := trace p |}.

Definition with_document (f : gmap string Element -> gmap string Element) (p : Page) : Page :=
  {| this := this p; localStorage := localStorage p; document := f (document p);
     theme := theme p; intervals := intervals p; next_interval := next_interval p;
     location := location p; trace := trace p |}.

Definition with_theme (t : option string) (p : Page) : Page :=
  {| this := this p; localStorage := localStorage p; document := document p;
     theme := t; intervals := intervals p; next_interval := next_interval p;
     location := location p; trace := trace p |}.

Definition emit (e : Effect) (p : Page) : Page :=
  {| this := this p; localStorage := localStorage p; document := document p;
     theme := theme p; intervals := intervals p; next_interval := next_interval p;
     location := location p; trace := trace p ++ [e] |}.

(** [window.location.href = url] *)
Definition navigate (url : string) (p : Page) : Page :=
  emit (Navigate url)
    {| this := this p; localStorage := localStorage p; document := document p;
       theme := theme p; intervals := intervals p; next_interval := next_interval p;
       location := Some url; trace := trace p |}.

(** [setInterval(cb, 1000)]: registers the callback, returns its id. *)
Definition setInterval (cb : Callback) (p : Page) : nat * Page :=
  (next_interval p,
   {| this := this p; localStorage := localStorage p; document := document p;
      theme := theme p; intervals := <[next_interval p := cb]> (intervals p);
      next_interval := S (next_interval p);
      location := location p; trace := trace p |}).

(** [clearInterval(id)]; nothing happens for [null] or an unknown id. *)
Definition clearInterval (id : option nat) (p : Page) : Page :=
  match id with
  | Some i =>
      {| this := this p; localStorage := localStorage p; document := document p;
         theme := theme p; intervals := delete i (intervals p);
         next_interval := next_interval p;
         location := location p; trace := trace p |}
  | None => p
  end.

(** [localStorage.getItem], [setItem], [removeItem] *)
Definition getItem (k : string) (p : Page) : option string := localStorage p !! k.
Definition setItem (k v : string) : Page -> Page := with_localStorage (insert k v).
Definition removeItem (k : string) : Page -> Page := with_localStorage (delete k).

(** [document.getElementById(id)] *)
Definition getElementById (id : string) (p : Page) : option Element := document p !! id.

(** A write through a reference that [getElementById] returned; nothing
    happens when the element is missing, as under [if (el)] and [el?.]. *)
Definition update_element (id : string) (f : Element -> Element) : Page -> Page :=
  with_document (alter f id).

Definition set_dutyStartTime (d : number) (m : Monitor) : Monitor :=
  {| dutyStartTime := Some d; dutyTimerInterval := dutyTimerInterval m;
     selectedCamera := selectedCamera m; shiftDuration := shiftDuration m;
     soundEnabled := soundEnabled m |}.

Definition set_dutyTimerInterval (i : nat) (m : Monitor) : Monitor :=
  {| dutyStartTime := dutyStartTime m; dutyTimerInterval := Some i;
     selectedCamera := selectedCamera m; shiftDuration := shiftDuration m;
     soundEnabled := soundEnabled m |}.

Definition set_selectedCamera (c : CameraId) (m : Monitor) : Monitor :=
  {| dutyStartTime := dutyStartTime m; dutyTimerInterval := dutyTimerInterval m;
     selectedCamera := c; shiftDuration := shiftDuration m;
     soundEnabled := soundEnabled m |}.

Definition set_shiftDuration (d : Z) (m : Monitor) : Monitor :=
  {| dutyStartTime := dutyStartTime m; dutyTimerInterval := dutyTimerInterval m;
     selectedCamera := selectedCamera m; shiftDuration := d;
     soundEnabled := soundEnabled m |}.

Definition set_soundEnabled (b : bool) (m : Monitor) : Monitor :=
  {| dutyStartTime := dutyStartTime m; dutyTimerInterval := dutyTimerInterval m;
     selectedCamera := selectedCamera m; shiftDuration := shiftDuration m;
     soundEnabled := b |}.

(** The number a date field converts to in [now - this.dutyStartTime]:
    its time value, and 0 for [null]. *)
Definition time_value (d : option number) : number :=
  match d with
  | Some t => t
  | None => Num 0
  end.

(** ** The methods of [SecurityMonitor] *)

Section Methods.

Context `{DateHost}.

(** The constants of [updateDutyTimer], as functions of the clock reading
    and of the object. *)
Definition elapsed (now : Z) (m : Monitor) : number :=
  JS.sub (Num now) (time_value (dutyStartTime m)).

Definition remaining (now : Z) (m : Monitor) : number :=
  JS.Math_max (Num 0) (JS.sub (Num (shiftDuration m)) (elapsed now m)).

Definition hours (ms : number) : number := JS.floor_div ms 3600000.
Definition minutes (ms : number) : number := JS.floor_div (JS.rem ms 3600000) 60000.
Definition seconds (ms : number) : number := JS.floor_div (JS.rem ms 60000) 1000.

(** [n.toString().padStart(2, '0')] *)
Definition pad2 (n : number) : string := JS.padStart 2 "0" (JS.toString n).

Definition timeStr (ms : number) : string :=
  JS.join ":" [pad2 (hours ms); pad2 (minutes ms); pad2 (seconds ms)].

(** [showEndOfShiftModal()]; [now] is its own reading of the clock. *)
Definition showEndOfShiftModal (now : Z) (p : Page) : Page :=
  let p := emit ShowEndOfShiftModal p in
  let p :=
    let elapsed := elapsed now (this p) in
    update_element "modalDutyTime"
      (set_textContent
         (pad2 (hours elapsed) +:+ ":" +:+ pad2 (minutes elapsed) +:+ ":"
            +:+ pad2 (seconds elapsed))) p in
  update_element "endShiftModal" (classList_add "open") p.

(** [updateDutyTimer()]; [now] is the clock reading at its first line and
    [now_modal] the one taken by [showEndOfShiftModal] if it is called. *)
Definition updateDutyTimer (now now_modal : Z) (p : Page) : Page :=
  let remaining := remaining now (this p) in
  let hours := hours remaining in
  let minutes := minutes remaining in
  let timeStr := timeStr remaining in
  let p := update_element "dutyTimerValue" (set_textContent timeStr) p in
  let p :=
    if JS.strict_eq hours (Num 0) && JS.le minutes (Num 30) && JS.gt minutes (Num 0)
    then update_element "dutyTimerValue" (style_setProperty "color" "#ffc107")
           (update_element "dutyTimer" (classList_add "warning") p)
    else p in
  if JS.strict_eq remaining (Num 0)
  then showEndOfShiftModal now_modal
         (update_element "dutyTimerValue" (style_setProperty "color" "#dc3545")
            (update_element "dutyTimer" (classList_add "critical") p))
  else p.

(** [startDutyTimer()]; [t_start] is the reading of [new Date()] in its
    second line (used only when nothing is stored), [t_tick] and [t_modal]
    the readings of the first [updateDutyTimer]. *)
Definition startDutyTimer (t_start t_tick t_modal : Z) (p : Page) : Page :=
  let stored := getItem "duty_start_time" p in
  let p :=
    with_this (set_dutyStartTime
                 (if JS.truthy stored then Date_parse (default "" stored)
                  else Num t_start)) p in
  let p :=
    if negb (JS.truthy stored)
    then setItem "duty_start_time" (toISOString t_start) p
    else p in
  let '(id, p) := setInterval UpdateDutyTimer p in
  let p := with_this (set_dutyTimerInterval id) p in
  updateDutyTimer t_tick t_modal p.

(** [endShift()] *)
Definition endShift (p : Page) : Page :=
  let p := clearInterval (dutyTimerInterval (this p)) p in
  let p := removeItem "duty_start_time" p in
  let p := emit (Alert "Shift ended. Thank you for your service!") p in
  navigate "../../index.html" p.

(** [requestOvertime()] *)
Definition requestOvertime (p : Page) : Page :=
  let p := update_element "endShiftModal" (classList_remove "open") p in
  let p :=
    with_this (fun m => set_shiftDuration (shiftDuration m + 2 * 60 * 60 * 1000) m) p in
  emit (Alert "Overtime approved. Extended by 2 hours.") p.

(** [logout()] *)
Definition logout (p : Page) : Page :=
  let p := clearInterval (dutyTimerInterval (this p)) p in
  let p := removeItem "duty_start_time" p in
  navigate "../../index.html" p.

(** [selectCamera(cameraId, element)]: the write to the object. *)
Definition selectCamera (cameraId : string) (p : Page) : Page :=
  with_this (set_selectedCamera (CamString cameraId)) p.

(** The part of [bindEvents()] that runs at once: the saved theme is put
    back when the theme button exists. *)
Definition bindEvents (p : Page) : Page :=
  match getElementById "themeToggle" p with
  | Some _ =>
      let savedTheme := getItem "security_theme" p in
      if JS.truthy savedTheme then with_theme savedTheme p else p
  | None => p
  end.

(** [init()] *)
Definition init (t_start t_tick t_modal : Z) (p : Page) : Page :=
  let p := startDutyTimer t_start t_tick t_modal p in
  let p := bindEvents p in
  snd (setInterval UpdateTimestamp p).

(** ** The page as a reactive system *)

(** The listener of the theme button. *)
Definition toggleTheme (p : Page) : Page :=
  let current := if JS.truthy (theme p) then default "" (theme p) else "default" in
  let next :=
    if decide (current = "default") then "light"
    else if decide (current = "light") then "dark"
    else "default" in
  setItem "security_theme" next (with_theme (Some next) p).

(** The listener of the sound button. *)
Definition toggleSound (p : Page) : Page :=
  with_this (fun m => set_soundEnabled (negb (soundEnabled m)) m) p.

(** The listeners that close a modal: a click on the backdrop [id] itself
    or on a [data-modal-close] button inside it. *)
Definition closeModal (id : string) (p : Page) : Page :=
  match getElementById id p with
  | Some el =>
      if decide ("modal-backdrop" ∈ classList el)
      then update_element id (classList_remove "open") p
      else p
  | None => p
  end.

(** What can happen to the page: the document finishes loading (with the
    elements [html] and the clock readings of [init]), a registered
    interval fires, or the user clicks. *)
Inductive Event : Type :=
  | DOMContentLoaded (html : gmap string Element) (t_start t_tick t_modal : Z)
  | IntervalFires (id : nat) (now now_modal : Z)
  | ClickCameraThumbnail (cam : string)
  | ClickSimulate
  | ClickDropdownItem (type : string)
  | ClickDocument
  | ClickThemeToggle
  | ClickSoundToggle
  | ClickFullscreen
  | ClickLogout (confirmed : bool)
  | ClickConfirmEndShift
  | ClickRequestOvertime
  | ClickBackdrop (id : string)
  | ClickModalClose (backdrop : string).

(** A newly loaded page: the script has just declared [SecurityMonitor];
    local storage is what the browser kept. *)
Definition fresh_page (html : gmap string Element) (storage : gmap string string) : Page :=
  {| this := SecurityMonitor; localStorage := storage; document := html;
     theme := None; intervals := ∅; next_interval := 1%nat;
     location := None; trace := [] |}.

(** A listener runs only if [bindEvents] found its element. *)
Definition when_bound (id : string) (p : Page) (handler : Page -> Page) : Page :=
  match getElementById id p with
  | Some _ => handler p
  | None => p
  end.

(** One event.  The listeners carry no test for a page that is being
    left: an event that still arrives after [location.href] was assigned
    runs its listener as before. *)
Definition dispatch (e : Event) (p : Page) : Page :=
  match e with
  | DOMContentLoaded html t_start t_tick t_modal =>
      init t_start t_tick t_modal (fresh_page html (localStorage p))
  | IntervalFires id now now_modal =>
      match intervals p !! id with
      | Some UpdateDutyTimer => updateDutyTimer now now_modal p
      | Some UpdateTimestamp => p   (* writes the [.ip-address] element *)
      | None => p
      end
  | ClickCameraThumbnail cam => selectCamera cam p
  | ClickThemeToggle => when_bound "themeToggle" p toggleTheme
  | ClickSoundToggle => when_bound "soundToggle" p toggleSound
  | ClickLogout confirmed =>
      when_bound "logoutBtn" p (fun p => if confirmed then logout p else p)
  | ClickConfirmEndShift => when_bound "confirmEndShift" p endShift
  | ClickRequestOvertime => when_bound "requestOvertimeBtn" p requestOvertime
  | ClickBackdrop id => closeModal id p
  | ClickModalClose backdrop => closeModal backdrop p
  (* the dropdown, the simulated detections and full screen only touch
     elements outside the model *)
  | ClickSimulate | ClickDropdownItem _ | ClickDocument | ClickFullscreen => p
  end.

(** A run of the page: the events in the order they happen. *)
Definition run (es : list Event) (p : Page) : Page :=
  foldl (fun p e => dispatch e p) p es.

(** What the first load of the console in a browser gives. *)
Definition first_load (html : gmap string Element) (storage : gmap string string)
    (t_start t_tick t_modal : Z) : Page :=
  init t_start t_tick t_modal (fresh_page html storage).

(** The number of calls of [showEndOfShiftModal] so far. *)
Definition signals (p : Page) : nat :=
  length (filter (λ e, e = ShowEndOfShiftModal) (trace p)).

(** The state of the timer display as the style sheet shows it: the
    container is critical once it carries the class [critical], in warning
    once it carries [warning], normal otherwise. *)
Inductive DisplayState : Type := normal | warning | critical.

Definition display_state (p : Page) : DisplayState :=
  match getElementById "dutyTimer" p with
  | Some el =>
      if decide ("critical" ∈ classList el) then critical
      else if decide ("warning" ∈ classList el) then warning
      else normal
  | None => normal
  end.

(** ** Notions used to state the properties *)

(** Successive ticks, each with its two clock readings. *)
Definition ticks (ts : list (Z * Z)) (p : Page) : Page :=
  foldl (λ p t, updateDutyTimer t.1 t.2 p) p ts.

(** The test of the warning branch, on a remaining time that is a number. *)
Definition warning_test (r : Z) : bool :=
  JS.strict_eq (hours (Num r)) (Num 0)
  && JS.le (minutes (Num r)) (Num 30) && JS.gt (minutes (Num r)) (Num 0).

(** The start of the shift that [startDutyTimer] settles on. *)
Definition effective_start (t_start : Z) (stored : option string) : number :=
  if JS.truthy stored then Date_parse (default "" stored) else Num t_start.

Definition is_load (e : Event) : bool :=
  match e with
  | DOMContentLoaded _ _ _ _ => true
  | _ => false
  end.

(** The click on the overtime button reaches [requestOvertime] when the
    button was found by [bindEvents]. *)
Definition overtime_granted (e : Event) (p : Page) : bool :=
  match e with
  | ClickRequestOvertime => bool_decide (is_Some (getElementById "requestOvertimeBtn" p))
  | _ => false
  end.

(** Events after which the shift no longer has its start: ending it or
    logging out discards the stored start. *)
Definition keeps_start (e : Event) : bool :=
  match e with
  | ClickConfirmEndShift | ClickLogout true => false
  | _ => true
  end.

(** The shift that started at [t0] is the one the object holds and the
    one local storage remembers. *)
Definition started_at (t0 : Z) (p : Page) : Prop :=
  dutyStartTime (this p) = Some (Num t0)
  /\ getItem "duty_start_time" p = Some (toISOString t0).

End Methods.

(** The format as the specification words it: three fields of exactly two
    decimal digits, hours, minutes and seconds obtained by integer
    division, joined by colons. *)
Module Spec.

(** The character of the last decimal digit of [n]. *)
Definition digit (n : Z) : ascii := ascii_of_nat (48 + Z.to_nat (n mod 10)).

Definition two_digits (n : Z) : string :=
  String (digit (n / 10)) (String (digit n) "").

Definition HH_MM_SS (remainingMs : Z) : string :=
  two_digits (remainingMs / 3600000) +:+ ":"
    +:+ two_digits (remainingMs mod 3600000 / 60000) +:+ ":"
    +:+ two_digits (remainingMs mod 60000 / 1000).

End Spec.

(** ** A sample console

    The markup of the console is not part of the script.  For closed
    examples: a document with the elements the script looks up by id, the
    modal being a backdrop as the closing listeners expect. *)

Module Sample.

Definition element (classes : list string) : Element :=
  {| textContent := ""; classList := classes; style := ∅ |}.

Definition html : gmap string Element :=
  list_to_map
    [("dutyTimerValue", element []); ("dutyTimer", element []);
     ("endShiftModal", element ["modal-backdrop"]); ("modalDutyTime", element []);
     ("confirmEndShift", element []); ("requestOvertimeBtn", element []);
     ("logoutBtn", element []); ("themeToggle", element []);
     ("soundToggle", element [])].

(** The console opened at the epoch in a browser that stored nothing. *)
Definition opened : Page := first_load html ∅ 0 0 0.

(** The sample console at the end of its shift, five seconds overdue. *)
Definition overdue : Page := updateDutyTimer 28805000 28805000 opened.


Definition damaged : Page :=
  fresh_page html {[ "duty_start_time" := "corrupted" ]}.

(** A run with ticks, clicks and a reload in the middle. *)
Definition reloaded_run : list Event :=
  [IntervalFires 1 1000 1000; ClickThemeToggle; ClickCameraThumbnail "2";
   DOMContentLoaded html 5000 5000 5000; IntervalFires 1 6000 6000].

End Sample.

(** ** The rest of the console

    The listeners and methods beside the duty timer: the detection
    dropdown, the vehicle counters, the notification feed and the popups.
    The dropdown and the counters are elements with an id, on the page as
    above; the feed and the popups need the wider state [Console] below.
    [dispatch] leaves the clicks in the dropdown aside: [happen] is their
    embedding.  Texts are kept as their UTF-8 bytes. *)

(** *** Built-ins on strings *)

(** The code of a byte. *)
Definition code (c : ascii) : Z := Z.of_nat (nat_of_ascii c).

(** The white space that [parseInt] skips: the ASCII controls and the
    space; the no-break space (two bytes in UTF-8); the Ogham space mark,
    the spaces U+2000 to U+200A, the line and paragraph separators, the
    narrow and the medium mathematical space, the ideographic space and the
    byte order mark (three bytes). *)
Definition is_whitespace1 (c : ascii) : bool :=
  bool_decide (code c ∈ [9; 10; 11; 12; 13; 32]).

Definition is_whitespace2 (c1 c2 : ascii) : bool :=
  bool_decide (code c1 = 194 /\ code c2 = 160).

Definition is_whitespace3 (c1 c2 c3 : ascii) : bool :=
  bool_decide
    ((code c1 = 225 /\ code c2 = 154 /\ code c3 = 128)
     \/ (code c1 = 226 /\ code c2 = 128
         /\ (128 <= code c3 <= 138 \/ code c3 = 168 \/ code c3 = 169 \/ code c3 = 175))
     \/ (code c1 = 226 /\ code c2 = 129 /\ code c3 = 159)
     \/ (code c1 = 227 /\ code c2 = 128 /\ code c3 = 128)
     \/ (code c1 = 239 /\ code c2 = 187 /\ code c3 = 191)).

Fixpoint trimStart (s : string) : string :=
  match s with
  | String c1 r1 =>
      if is_whitespace1 c1 then trimStart r1
      else
        match r1 with
        | String c2 r2 =>
            if is_whitespace2 c1 c2 then trimStart r2
            else
              match r2 with
              | String c3 r3 => if is_whitespace3 c1 c2 c3 then trimStart r3 else s
              | EmptyString => s
              end
        | EmptyString => s
        end
  | EmptyString => s
  end.

(** [s] without the prefix [pre], if it starts with it. *)
Fixpoint strip_prefix (pre s : string) : option string :=
  match pre, s with
  | EmptyString, _ => Some s
  | String a pre', String b s' => if decide (a = b) then strip_prefix pre' s' else None
  | String _ _, EmptyString => None
  end.

(** The value of a character as a digit in the radix, if it is one. *)
Definition digit_of (radix : Z) (c : ascii) : option Z :=
  let v :=
    if decide (48 <= code c <= 57) then Some (code c - 48)
    else if decide (97 <= code c <= 122) then Some (code c - 87)
    else if decide (65 <= code c <= 90) then Some (code c - 55)
    else None in
  v ≫= λ v, if decide (v < radix) then Some v else None.

(** The values of the leading digits of a string. *)
Fixpoint radix_digits (radix : Z) (s : string) : list Z :=
  match s with
  | String c r =>
      match digit_of radix c with
      | Some v => v :: radix_digits radix r
      | None => []
      end
  | EmptyString => []
  end.

(** [parseInt(s)] with no radix: white space is skipped, a sign is read,
    [0x] selects radix 16, the longest run of digits is the value, and
    there is [NaN] when no digit follows. *)
Definition parseInt (s : string) : number :=
  let s := trimStart s in
  let '(sign, s) :=
    match strip_prefix "-" s with
    | Some r => (-1, r)
    | None =>
        match strip_prefix "+" s with
        | Some r => (1, r)
        | None => (1, s)
        end
    end in
  let '(radix, s) :=
    match strip_prefix "0x" s with
    | Some r => (16, r)
    | None =>
        match strip_prefix "0X" s with
        | Some r => (16, r)
        | None => (10, s)
        end
    end in
  match radix_digits radix s with
  | [] => NaN
  | ds => Num (sign * foldl (λ a d, a * radix + d) 0 ds)
  end.

(** [n || 0] on a number: [NaN] and 0 give 0. *)
Definition or_zero (n : number) : number :=
  match n with
  | Num z => Num z
  | NaN => Num 0
  end.

(** The leading decimal digits of a string. *)
Fixpoint take_digits (s : string) : string :=
  match s with
  | String c r =>
      if bool_decide (48 <= code c <= 57) then String c (take_digits r)
      else EmptyString
  | EmptyString => EmptyString
  end.

(** [s.match(/↑ (\d+)/)]: the first group of the leftmost match. *)
Fixpoint match_arrow_digits (s : string) : option string :=
  match s with
  | String _ r =>
      match strip_prefix "↑ " s with
      | Some rest =>
          if decide (take_digits rest = "") then match_arrow_digits r
          else Some (take_digits rest)
      | None => match_arrow_digits r
      end
  | EmptyString => None
  end.

(** *** The dropdown and the counters, on the page *)

(** [el.classList.toggle(c)] *)
Definition classList_toggle (c : string) (el : Element) : Element :=
  if decide (c ∈ classList el) then classList_remove c el else classList_add c el.

(** The listener of the simulate button (the click does not propagate). *)
Definition toggleDropdown (p : Page) : Page :=
  update_element "detectionDropdown" (classList_toggle "show")
    (update_element "detectionDropdown" (classList_toggle "hidden") p).

(** The listener of the document, and the last two lines of the listener
    of a dropdown item. *)
Definition closeDropdown (p : Page) : Page :=
  update_element "detectionDropdown" (classList_remove "show")
    (update_element "detectionDropdown" (classList_add "hidden") p).

(** [el.classList.toggle(c, force)] *)
Definition classList_toggle_force (c : string) (force : bool) (el : Element) : Element :=
  if force then classList_add c el else classList_remove c el.

(** The listener of the sound button, with what it writes on the button. *)
Definition clickSoundToggle (p : Page) : Page :=
  let p := toggleSound p in
  let p :=
    update_element "soundToggle"
      (set_textContent (if soundEnabled (this p) then "🔊" else "🔇")) p in
  update_element "soundToggle"
    (classList_toggle_force "muted" (negb (soundEnabled (this p)))) p.

(** [incrementVehicleCount(type)] *)
Definition incrementVehicleCount (type : string) (p : Page) : Page :=
  let p :=
    match getElementById ("count-" +:+ type) p with
    | Some countEl =>
        let current := or_zero (parseInt (textContent countEl)) in
        update_element ("count-" +:+ type)
          (set_textContent (JS.toString (JS.add current (Num 1)))) p
    | None => p
    end in
  match getElementById ("inc-" +:+ type) p with
  | Some incEl =>
      let current :=
        match match_arrow_digits (textContent incEl) with
        | Some digits => parseInt digits
        | None => Num 0
        end in
      update_element ("inc-" +:+ type)
        (set_textContent
           ("↑ " +:+ JS.toString (JS.add current (Num 1)) +:+ " in last min")) p
  | None => p
  end.

(** *** Notifications and popups

    The nodes that [addNotification] and [showPopup] create are not found
    by id: the console keeps, beside the page, the children of the feed and
    of the popup container, the markup of the detection overlay and the
    pending timeouts.  The entries of the document under the ids of the
    feed, the popup container and the overlay stand for those nodes
    themselves; what the methods write is their children, kept in the
    fields below.  The markup assigned to [innerHTML] is kept as the
    texts of its parts; a created node is known by a serial number, as the
    closures of its timeouts know it. *)

Record Notification : Type := {
  title : string;
  desc : string;
  class : string
}.

(** The table of [simulateDetection]. *)
Definition detectionTypes : list (string * Notification) :=
  [("unregistered",
    {| title := "Unregistered Vehicle"; desc := "Plate ABC 1234 not found in database";
       class := "" |});
   ("multiple",
    {| title := "Multiple Vehicles"; desc := "3 vehicles detected in single frame";
       class := "warning" |});
   ("unauthorized",
    {| title := "Unauthorized User"; desc := "Driver ID mismatch for vehicle DEF 5678";
       class := "" |});
   ("exception",
    {| title := "Exception Granted"; desc := "Visitor pass validated for XYZ 9012";
       class := "success" |});
   ("verification",
    {| title := "Verification Required"; desc := "Manual check needed for plate GHI 3456";
       class := "info" |})].

(** The property names every object inherits.  Under one of them the
    table yields a function or the prototype, whose [title], [desc] and
    [class] are [undefined]. *)
Definition inherited_names : list string :=
  ["constructor"; "hasOwnProperty"; "isPrototypeOf"; "propertyIsEnumerable";
   "toLocaleString"; "toString"; "valueOf"; "__proto__"; "__defineGetter__";
   "__defineSetter__"; "__lookupGetter__"; "__lookupSetter__"].

(** [detectionTypes[type]] when it is truthy; [undefined] fields read as
    the text the templates print for them. *)
Definition detection (type : string) : option Notification :=
  match list_find (λ kv, kv.1 = type) detectionTypes with
  | Some (_, (_, n)) => Some n
  | None =>
      if decide (type ∈ inherited_names)
      then Some {| title := "undefined"; desc := "undefined"; class := "undefined" |}
      else None
  end.

(** A child of the feed: the class name and the texts of the icon, title,
    description and time cells. *)
Record FeedItem : Type := {
  item_className : string;
  notif_icon : string;
  notif_title : string;
  notif_desc : string;
  notif_time : string
}.

(** A child of the popup container. *)
Record Popup : Type := {
  popup_node : nat;
  popup_className : string;
  popup_icon : string;
  popup_title : string;
  popup_desc : string;
  popup_animation : option string
}.

Inductive Timeout : Type :=
  | FadeOut (node : nat)     (** the callback of the 5000 ms timeout *)
  | RemovePopup (node : nat) (** the callback of the 400 ms timeout *).

Record Console : Type := {
  page : Page;
  notificationList : list FeedItem;
  scrollLeft : Z;
  popupContainer : list Popup;
  detectionOverlay : string;
  timeouts : gmap nat Timeout;
  next_node : nat
}.

Definition with_page (f : Page -> Page) (c : Console) : Console :=
  {| page := f (page c); notificationList := notificationList c;
     scrollLeft := scrollLeft c; popupContainer := popupContainer c;
     detectionOverlay := detectionOverlay c; timeouts := timeouts c;
     next_node := next_node c |}.

(** [setTimeout(cb, ms)]: timeouts take their ids from the counter of the
    intervals. *)
Definition setTimeout (cb : Timeout) (c : Console) : Console :=
  let p := page c in
  {| page :=
       {| this := this p; localStorage := localStorage p; document := document p;
          theme := theme p; intervals := intervals p;
          next_interval := S (next_interval p);
          location := location p; trace := trace p |};
     notificationList := notificationList c; scrollLeft := scrollLeft c;
     popupContainer := popupContainer c; detectionOverlay := detectionOverlay c;
     timeouts := <[next_interval p := cb]> (timeouts c);
     next_node := next_node c |}.

(** [addNotification(notification)] *)
Definition addNotification (notification : Notification) (c : Console) : Console :=
  match getElementById "notificationList" (page c) with
  | None => c
  | Some _ =>
      let item :=
        {| item_className := "notification-item " +:+ class notification +:+ " fade-in";
           notif_icon := if decide (class notification = "success") then "✓" else "⚠";
           notif_title := title notification;
           notif_desc := desc notification;
           notif_time := "Just now" |} in
      {| page := page c; notificationList := item :: notificationList c;
         scrollLeft := 0; popupContainer := popupContainer c;
         detectionOverlay := detectionOverlay c; timeouts := timeouts c;
         next_node := next_node c |}
  end.

(** [showPopup(notification)] *)
Definition showPopup (notification : Notification) (c : Console) : Console :=
  match getElementById "popupContainer" (page c) with
  | None => c
  | Some _ =>
      let popup :=
        {| popup_node := next_node c;
           popup_className := "detection-popup " +:+ class notification;
           popup_icon := if decide (class notification = "success") then "✅" else "⚠️";
           popup_title := title notification;
           popup_desc := desc notification;
           popup_animation := None |} in
      setTimeout (FadeOut (next_node c))
        {| page := page c; notificationList := notificationList c;
           scrollLeft := scrollLeft c; popupContainer := popupContainer c ++ [popup];
           detectionOverlay := detectionOverlay c; timeouts := timeouts c;
           next_node := S (next_node c) |}
  end.

(** [simulateDetection(type)] *)
Definition simulateDetection (type : string) (c : Console) : Console :=
  match detection type with
  | None => c
  | Some detection =>
      let c := addNotification detection c in
      let c := showPopup detection c in
      with_page (incrementVehicleCount "car") c
  end.

(** [clearDetection()] *)
Definition clearDetection (c : Console) : Console :=
  match getElementById "detectionOverlay" (page c) with
  | Some _ =>
      {| page := page c; notificationList := notificationList c;
         scrollLeft := scrollLeft c; popupContainer := popupContainer c;
         detectionOverlay := ""; timeouts := timeouts c; next_node := next_node c |}
  | None => c
  end.

(** A pending timeout runs, once: the first one of a popup starts its
    fade-out and sets the second, which removes the popup. *)
Definition fire (id : nat) (c : Console) : Console :=
  match timeouts c !! id with
  | None => c
  | Some cb =>
      let c :=
        {| page := page c; notificationList := notificationList c;
           scrollLeft := scrollLeft c; popupContainer := popupContainer c;
           detectionOverlay := detectionOverlay c; timeouts := delete id (timeouts c);
           next_node := next_node c |} in
      match cb with
      | FadeOut node =>
          setTimeout (RemovePopup node)
            {| page := page c; notificationList := notificationList c;
               scrollLeft := scrollLeft c;
               popupContainer :=
                 (λ popup, if decide (popup_node popup = node)
                           then {| popup_node := popup_node popup;
                                   popup_className := popup_className popup;
                                   popup_icon := popup_icon popup;
                                   popup_title := popup_title popup;
                                   popup_desc := popup_desc popup;
                                   popup_animation := Some "fadeOut 0.4s forwards" |}
                           else popup) <$> popupContainer c;
               detectionOverlay := detectionOverlay c; timeouts := timeouts c;
               next_node := next_node c |}
      | RemovePopup node =>
          {| page := page c; notificationList := notificationList c;
             scrollLeft := scrollLeft c;
             popupContainer := filter (λ popup, popup_node popup ≠ node) (popupContainer c);
             detectionOverlay := detectionOverlay c; timeouts := timeouts c;
             next_node := next_node c |}
      end
  end.

(** The listener of a dropdown item with [data-type] [type]. *)
Definition clickDropdownItem (type : string) (c : Console) : Console :=
  let c := if decide (type = "clear") then clearDetection c else simulateDetection type c in
  with_page closeDropdown c.

(** What happens around the detections: a dropdown item is clicked, or a
    pending timeout runs. *)
Inductive Happening : Type :=
  | ItemClicked (type : string)
  | TimeoutFires (id : nat).

(** The item listeners exist only if [bindEvents] found the button and
    the dropdown. *)
Definition happen (h : Happening) (c : Console) : Console :=
  match h with
  | ItemClicked type =>
      match getElementById "simulateBtn" (page c),
            getElementById "detectionDropdown" (page c) with
      | Some _, Some _ => clickDropdownItem type c
      | _, _ => c
      end
  | TimeoutFires id => fire id c
  end.

Definition happenings (hs : list Happening) (c : Console) : Console :=
  foldl (λ c h, happen h c) c hs.

(** *** Notions used to state the properties of the console *)

(** The callback of the duty timer is registered under the id kept in
    [dutyTimerInterval] while the console is shown, and under no id once
    the page is being left. *)
Definition duty_interval_kept (p : Page) : Prop :=
  forall i, intervals p !! i = Some UpdateDutyTimer
            <-> location p = None /\ dutyTimerInterval (this p) = Some i.

(** The two states of the dropdown. *)
Definition dropdown_hidden (el : Element) : Prop :=
  "hidden" ∈ classList el /\ "show" ∉ classList el.

Definition dropdown_shown (el : Element) : Prop :=
  "show" ∈ classList el /\ "hidden" ∉ classList el.

(** A popup waits for the timeout that starts its fade-out, or, fading,
    for the one that removes it. *)
Definition awaited (popup : Popup) : Timeout :=
  match popup_animation popup with
  | None => FadeOut (popup_node popup)
  | Some _ => RemovePopup (popup_node popup)
  end.

(** The feed item that [addNotification] makes of a notification. *)
Definition feed_item (notification : Notification) : FeedItem :=
  {| item_className := "notification-item " +:+ class notification +:+ " fade-in";
     notif_icon := if decide (class notification = "success") then "✓" else "⚠";
     notif_title := title notification;
     notif_desc := desc notification;
     notif_time := "Just now" |}.

(** Several detections in a row. *)
Definition simulate_all (types : list string) (c : Console) : Console :=
  foldl (λ c type, simulateDetection type c) c types.

(** The elements that the detections write: the two car counters and the
    dropdown, whose text and classes change, and the feed, the popup
    container and the detection overlay, whose children change. *)
Definition detection_ids : list string :=
  ["count-car"; "inc-car"; "detectionDropdown";
   "notificationList"; "popupContainer"; "detectionOverlay"].

(** Two pages that differ at most in those elements and in the counter of
    the timer ids.  Elements are compared as the page looks them up: by
    id, each with its own text, classes and style. *)
Definition same_shift (p q : Page) : Prop :=
  this q = this p /\ localStorage q = localStorage p /\ theme q = theme p
  /\ intervals q = intervals p /\ location q = location p /\ trace q = trace p
  /\ forall id, id ∉ detection_ids -> getElementById id q = getElementById id p.

(** Every popup in the container has its pending timeout, the only one
    with that callback, and every pending timeout is the one of a popup
    in the container; nodes and ids are not used twice. *)
Definition popups_awaited (c : Console) : Prop :=
  (forall id cb, timeouts c !! id = Some cb -> (id < next_interval (page c))%nat)
  /\ (forall popup, popup ∈ popupContainer c -> (popup_node popup < next_node c)%nat)
  /\ NoDup (popup_node <$> popupContainer c)
  /\ (forall popup, popup ∈ popupContainer c ->
        exists id, timeouts c !! id = Some (awaited popup))
  /\ (forall id cb, timeouts c !! id = Some cb ->
        exists popup, popup ∈ popupContainer c /\ awaited popup = cb)
  /\ (forall id1 id2 cb, timeouts c !! id1 = Some cb -> timeouts c !! id2 = Some cb ->
        id1 = id2).

(** A string that starts with a decimal digit other than 0. *)
Definition starts_with_digit (s : string) : Prop :=
  exists c r, s = String c r /\ 49 <= code c <= 57.

(** A string of decimal digits. *)
Fixpoint all_digits (s : string) : Prop :=
  match s with
  | String c r => 48 <= code c <= 57 /\ all_digits r
  | EmptyString => True
  end.

(** A console to try things on: the sample page with the elements of the
    detections, twelve cars counted, three of them in the last minute. *)
Module Desk.

Definition element (text : string) (classes : list string) : Element :=
  {| textContent := text; classList := classes; style := ∅ |}.

Definition html : gmap string Element :=
  list_to_map
    [("dutyTimerValue", element "" []); ("dutyTimer", element "" []);
     ("endShiftModal", element "" ["modal-backdrop"]); ("modalDutyTime", element "" []);
     ("confirmEndShift", element "" []); ("requestOvertimeBtn", element "" []);
     ("logoutBtn", element "" []); ("themeToggle", element "" []);
     ("soundToggle", element "" []);
     ("simulateBtn", element "" []);
     ("detectionDropdown", element "" ["dropdown"; "hidden"]);
     ("notificationList", element "" []); ("popupContainer", element "" []);
     ("detectionOverlay", element "" []);
     ("count-car", element "12" []); ("inc-car", element "↑ 3 in last min" [])].

Definition console : Console :=
  {| page := first_load html ∅ 0 0 0;
     notificationList := []; scrollLeft := 0; popupContainer := [];
     detectionOverlay := ""; timeouts := ∅; next_node := 0%nat |}.

End Desk.

(** ** What a tick leaves alone *)

Lemma this_update_element id f p : this (update_element id f p) = this p.
Proof. reflexivity. Qed.

Lemma this_showEndOfShiftModal now p : this (showEndOfShiftModal now p) = this p.
Proof. reflexivity. Qed.

Lemma this_updateDutyTimer now now_modal p :
  this (updateDutyTimer now now_modal p) = this p.
Proof. unfold updateDutyTimer. repeat case_match; reflexivity. Qed.

Lemma localStorage_updateDutyTimer now now_modal p :
  localStorage (updateDutyTimer now now_modal p) = localStorage p.
Proof. unfold updateDutyTimer. repeat case_match; reflexivity. Qed.

Lemma location_updateDutyTimer now now_modal p :
  location (updateDutyTimer now now_modal p) = location p.
Proof. unfold updateDutyTimer. repeat case_match; reflexivity. Qed.

Lemma intervals_updateDutyTimer now now_modal p :
  intervals (updateDutyTimer now now_modal p) = intervals p.
Proof. unfold updateDutyTimer. repeat case_match; reflexivity. Qed.

(** A tick appends one call of the modal when nothing remains, and
    nothing otherwise. *)
Lemma trace_updateDutyTimer now now_modal p :
  trace (updateDutyTimer now now_modal p) =
  trace p ++ (if JS.strict_eq (remaining now (this p)) (Num 0)
              then [ShowEndOfShiftModal] else []).
Proof.
  unfold updateDutyTimer.
  destruct (JS.strict_eq (remaining now (this p)) (Num 0));
    repeat case_match; cbn; rewrite ?app_nil_r; reflexivity.
Qed.

Lemma signals_app_trace p q l :
  trace q = trace p ++ l ->
  signals q = (signals p + length (filter (λ e, e = ShowEndOfShiftModal) l))%nat.
Proof. unfold signals. intros ->. by rewrite filter_app, length_app. Qed.

Lemma signals_updateDutyTimer now now_modal p :
  signals (updateDutyTimer now now_modal p) =
  (signals p + if JS.strict_eq (remaining now (this p)) (Num 0) then 1 else 0)%nat.
Proof.
  rewrite (signals_app_trace p _ _ (trace_updateDutyTimer now now_modal p)).
  by destruct (JS.strict_eq _ _).
Qed.

(** Reading an element back after a write through [update_element]. *)
Lemma lookup_update_element_eq id f p :
  getElementById id (update_element id f p) = f <$> getElementById id p.
Proof. unfold getElementById, update_element; cbn. apply lookup_alter_eq. Qed.

Lemma lookup_update_element_ne id id' f p :
  id' ≠ id -> getElementById id (update_element id' f p) = getElementById id p.
Proof. intros. unfold getElementById, update_element; cbn. by apply lookup_alter_ne. Qed.

Lemma lookup_emit id e p : getElementById id (emit e p) = getElementById id p.
Proof. reflexivity. Qed.

Ltac lookup_element :=
  repeat first
    [ rewrite lookup_update_element_eq
    | rewrite lookup_update_element_ne by done
    | rewrite lookup_emit ].

(** The text of the timer after a tick is the string computed from the
    clock reading of that tick. *)
Lemma textContent_updateDutyTimer now now_modal p el :
  getElementById "dutyTimerValue" p = Some el ->
  textContent <$> getElementById "dutyTimerValue" (updateDutyTimer now now_modal p)
  = Some (timeStr (remaining now (this p))).
Proof.
  intros Hel. unfold updateDutyTimer, showEndOfShiftModal.
  repeat case_match; lookup_element; rewrite Hel; reflexivity.
Qed.

(** Classes are only ever added to the timer container. *)
Lemma classList_add_mono c c' el : c ∈ classList el -> c ∈ classList (classList_add c' el).
Proof.
  intros Hc. unfold classList_add; cbn.
  destruct (decide (c' ∈ classList el)); [done | apply elem_of_app; by left].
Qed.

Lemma classList_add_elem c el : c ∈ classList (classList_add c el).
Proof.
  unfold classList_add; cbn.
  destruct (decide (c ∈ classList el)); [done | apply elem_of_app; right; apply list_elem_of_singleton; done].
Qed.

Lemma classList_add_other c c' el :
  c ≠ c' -> c ∈ classList (classList_add c' el) <-> c ∈ classList el.
Proof.
  intros Hne. unfold classList_add; cbn.
  destruct (decide (c' ∈ classList el)); [done |].
  rewrite elem_of_app, list_elem_of_singleton. tauto.
Qed.

Lemma classList_remove_elem c el : c ∉ classList (classList_remove c el).
Proof. unfold classList_remove; cbn. rewrite list_elem_of_filter. tauto. Qed.

(** ** Remaining time *)

Lemma remaining_valid now m s :
  dutyStartTime m = Some (Num s) ->
  remaining now m = Num (Z.max 0 (shiftDuration m - (now - s))).
Proof. unfold remaining, elapsed. by intros ->. Qed.

Lemma remaining_invalid now m :
  dutyStartTime m = Some NaN -> remaining now m = NaN.
Proof. unfold remaining, elapsed. by intros ->. Qed.

(** C6.  At every tick of a shift whose start is a valid date,
    [remaining] is [max(0, shiftDuration - (now - start))]: a number that is
    never negative, also when more than the shift's length has elapsed; it
    is the number whose rendering the tick writes to the timer.  At every
    tick of a shift whose start is an invalid date, [remaining] is [NaN],
    which is not a number at or above 0, and the tick writes
    ["NaN:NaN:NaN"]. *)
Theorem remaining_is_clamped (now now_modal : Z) (p : Page) :
  (forall s, dutyStartTime (this p) = Some (Num s) ->
     remaining now (this p) = Num (Z.max 0 (shiftDuration (this p) - (now - s)))
     /\ (exists r, remaining now (this p) = Num r /\ 0 <= r)
     /\ (shiftDuration (this p) <= now - s -> remaining now (this p) = Num 0)
     /\ (forall el, getElementById "dutyTimerValue" p = Some el ->
           textContent <$> getElementById "dutyTimerValue" (updateDutyTimer now now_modal p)
           = Some (timeStr (Num (Z.max 0 (shiftDuration (this p) - (now - s)))))))
  /\ (dutyStartTime (this p) = Some NaN ->
       remaining now (this p) = NaN
       /\ JS.le (Num 0) (remaining now (this p)) = false
       /\ (forall el, getElementById "dutyTimerValue" p = Some el ->
             textContent <$> getElementById "dutyTimerValue" (updateDutyTimer now now_modal p)
             = Some "NaN:NaN:NaN")).
Proof.
  split.
  - intros s Hs. pose proof (remaining_valid now _ _ Hs) as Hr.
    split; [exact Hr |]. split; [| split].
    + eexists; split; [exact Hr | lia].
    + intros Hle. rewrite Hr. f_equal. lia.
    + intros el Hel. rewrite <- Hr. by eapply textContent_updateDutyTimer.
  - intros Hs. pose proof (remaining_invalid now _ Hs) as Hr.
    split; [exact Hr |]. split; [by rewrite Hr |].
    intros el Hel. rewrite (textContent_updateDutyTimer _ _ _ _ Hel), Hr. reflexivity.
Qed.

Lemma remaining_is_clamped_witness :
  (dutyStartTime (this Sample.opened) = Some (Num 0)
   /\ remaining 30000000 (this Sample.opened) = Num 0)
  /\ (dutyStartTime (this (startDutyTimer 5000 6000 7000 Sample.damaged)) = Some NaN
      /\ remaining 8000 (this (startDutyTimer 5000 6000 7000 Sample.damaged)) = NaN).
Proof.
  split; (split; [reflexivity |]).
  - destruct (proj1 (remaining_is_clamped 30000000 30000000 Sample.opened) 0 eq_refl)
      as (_ & _ & Hzero & _).
    apply Hzero. vm_compute. discriminate.
  - exact (proj1 (proj2 (remaining_is_clamped 8000 8000
                           (startDutyTimer 5000 6000 7000 Sample.damaged)) eq_refl)).
Defined.

(** C6 does not hold at every tick: in a browser whose stored start does
    not parse, the console starts its shift at an invalid date, and the
    tick of its interval computes [NaN], which is not at or above 0. *)
Lemma remaining_not_a_number :
  let p := first_load Sample.html {[ "duty_start_time" := "corrupted" ]} 5000 5000 5000 in
  let q := dispatch (IntervalFires 1 6000 6000) p in
  intervals p !! 1%nat = Some UpdateDutyTimer
  /\ remaining 6000 (this p) = NaN
  /\ JS.le (Num 0) (remaining 6000 (this p)) = false
  /\ ~ (exists r, remaining 6000 (this p) = Num r /\ 0 <= r)
  /\ textContent <$> getElementById "dutyTimerValue" q = Some "NaN:NaN:NaN".
Proof.
  repeat split; try reflexivity. intros (r & Hr & _). discriminate Hr.
Qed.

(** ** The countdown string *)

(** Below one hundred, padding the decimal rendering to width two gives
    exactly two digits: checked value by value. *)
Lemma pad2_two_digits (n : Z) :
  0 <= n < 100 -> pad2 (Num n) = Spec.two_digits n.
Proof.
  intros Hn.
  assert (Hall : Forall (λ k, pad2 (Num k) = Spec.two_digits k)
                   (Z.of_nat <$> seq 0 100)).
  { apply (bool_decide_unpack _). vm_compute. exact I. }
  rewrite Forall_forall in Hall. apply Hall.
  apply list_elem_of_fmap. exists (Z.to_nat n). split; [lia |].
  apply elem_of_seq. lia.
Qed.

Lemma timeStr_fields (r : Z) :
  timeStr (Num r) =
  pad2 (Num (r / 3600000)) +:+ ":" +:+ pad2 (Num (Z.rem r 3600000 / 60000))
    +:+ ":" +:+ pad2 (Num (Z.rem r 60000 / 1000)).
Proof. reflexivity. Qed.

(** C5, as amended.  For every remaining time from 0 up to (not
    including) 100 hours the tick renders [HH:MM:SS]: three fields of
    exactly two digits, hours, minutes and seconds by truncating division,
    eight characters in all; 1,500,000 ms reads [00:25:00]. *)
Theorem timeStr_is_HH_MM_SS (r : Z) :
  0 <= r < 360000000 ->
  timeStr (Num r) = Spec.HH_MM_SS r
  /\ String.length (timeStr (Num r)) = 8%nat
  /\ timeStr (Num 1500000) = "00:25:00".
Proof.
  intros Hr. split; [| split].
  - rewrite timeStr_fields. unfold Spec.HH_MM_SS.
    rewrite !Z.rem_mod_nonneg by lia.
    rewrite !pad2_two_digits; [reflexivity | | |].
    + pose proof (Z.mod_pos_bound r 60000 ltac:(lia)).
      split; [apply Z.div_pos; lia | apply Z.div_lt_upper_bound; lia].
    + pose proof (Z.mod_pos_bound r 3600000 ltac:(lia)).
      split; [apply Z.div_pos; lia | apply Z.div_lt_upper_bound; lia].
    + split; [apply Z.div_pos; lia | apply Z.div_lt_upper_bound; lia].
  - rewrite timeStr_fields.
    rewrite !pad2_two_digits; [reflexivity | | |].
    + rewrite Z.rem_mod_nonneg by lia.
      pose proof (Z.mod_pos_bound r 60000 ltac:(lia)).
      split; [apply Z.div_pos; lia | apply Z.div_lt_upper_bound; lia].
    + rewrite Z.rem_mod_nonneg by lia.
      pose proof (Z.mod_pos_bound r 3600000 ltac:(lia)).
      split; [apply Z.div_pos; lia | apply Z.div_lt_upper_bound; lia].
    + split; [apply Z.div_pos; lia | apply Z.div_lt_upper_bound; lia].
  - reflexivity.
Qed.

Lemma timeStr_is_HH_MM_SS_witness :
  0 <= 1500000 < 360000000 /\ timeStr (Num 1500000) = Spec.HH_MM_SS 1500000.
Proof.
  split; [lia |]. apply (timeStr_is_HH_MM_SS 1500000). lia.
Defined.

(** C5 does not hold for every remaining time: at 100 hours the hour
    field takes three digits. *)
Lemma timeStr_hundred_hours :
  0 <= 360000000
  /\ timeStr (Num 360000000) = "100:00:00"
  /\ timeStr (Num 360000000) <> Spec.HH_MM_SS 360000000
  /\ String.length (timeStr (Num 360000000)) <> 8%nat.
Proof. split; [lia |]. split; [reflexivity |]. split; vm_compute; discriminate. Qed.

(** ** The warning and critical classes *)

Lemma hours_Num (r : Z) : hours (Num r) = Num (r / 3600000).
Proof. reflexivity. Qed.

Lemma minutes_Num (r : Z) : minutes (Num r) = Num (Z.rem r 3600000 / 60000).
Proof. reflexivity. Qed.

Lemma seconds_Num (r : Z) : seconds (Num r) = Num (Z.rem r 60000 / 1000).
Proof. reflexivity. Qed.

(** The branch is taken from one minute up to 30 minutes 59.999 seconds. *)
Lemma warning_test_window (r : Z) :
  0 <= r -> warning_test r = true <-> 60000 <= r < 1860000.
Proof.
  intros Hr. unfold warning_test. rewrite hours_Num, minutes_Num.
  unfold JS.strict_eq, JS.le, JS.gt.
  rewrite !andb_true_iff, !bool_decide_eq_true.
  rewrite Z.rem_mod_nonneg by lia.
  split.
  - intros [[Hh Hle] Hgt]. Z.to_euclidean_division_equations. lia.
  - intros Hwin. Z.to_euclidean_division_equations. lia.
Qed.

Lemma display_state_lookup p q :
  getElementById "dutyTimer" p = getElementById "dutyTimer" q ->
  display_state p = display_state q.
Proof. unfold display_state. by intros ->. Qed.

(** What a tick does to the timer container. *)
Lemma dutyTimer_updateDutyTimer now now_modal p r :
  remaining now (this p) = Num r ->
  getElementById "dutyTimer" (updateDutyTimer now now_modal p) =
  (λ el, let el := if warning_test r then classList_add "warning" el else el in
         if bool_decide (r = 0) then classList_add "critical" el else el)
    <$> getElementById "dutyTimer" p.
Proof.
  intros Hr. unfold updateDutyTimer, showEndOfShiftModal. rewrite Hr.
  fold (warning_test r). cbn [JS.strict_eq].
  destruct (warning_test r), (bool_decide (r = 0)); lookup_element;
    by destruct (getElementById "dutyTimer" p).
Qed.

(** C2, as amended.  On a timer container that carries neither class yet,
    a tick of a shift with a valid start shows the warning state exactly
    when 60,000 <= remaining < 1,860,000 ms, that is when the hour field is
    0 and the minute field is between 1 and 30; with a shift of 8 hours and
    7 h 31 min elapsed the state is warning. *)
Theorem warning_exactly_in_minute_window (now now_modal : Z) (p : Page) (s : Z) (el : Element) :
  dutyStartTime (this p) = Some (Num s) ->
  getElementById "dutyTimer" p = Some el ->
  "warning" ∉ classList el ->
  "critical" ∉ classList el ->
  (display_state (updateDutyTimer now now_modal p) = warning
   <-> 60000 <= Z.max 0 (shiftDuration (this p) - (now - s)) < 1860000)
  /\ (shiftDuration (this p) = 8 * 3600000 -> now - s = 7 * 3600000 + 31 * 60000 ->
      display_state (updateDutyTimer now now_modal p) = warning).
Proof.
  intros Hs Hel Hw Hc.
  pose proof (remaining_valid now _ _ Hs) as Hr.
  set (r := Z.max 0 (shiftDuration (this p) - (now - s))) in *.
  assert (Hiff : display_state (updateDutyTimer now now_modal p) = warning
                 <-> 60000 <= r < 1860000).
  { unfold display_state.
    rewrite (dutyTimer_updateDutyTimer _ _ _ _ Hr), Hel; cbn.
    rewrite <- (warning_test_window r) by lia.
    destruct (warning_test r) eqn:Hwt.
    - assert (r <> 0) as Hnz.
      { apply warning_test_window in Hwt; lia. }
      rewrite bool_decide_eq_false_2 by done.
      rewrite decide_False by (by rewrite classList_add_other).
      rewrite decide_True by apply classList_add_elem. done.
    - destruct (bool_decide (r = 0)).
      + rewrite decide_True by apply classList_add_elem. done.
      + rewrite !decide_False by done. done. }
  split; [exact Hiff |].
  intros HD Hnow. apply Hiff. lia.
Qed.

Lemma warning_exactly_in_minute_window_witness :
  display_state (updateDutyTimer 27060000 27060000 Sample.opened) = warning.
Proof.
  refine (proj2 (warning_exactly_in_minute_window 27060000 27060000 Sample.opened 0
                   (Sample.element []) _ _ _ _) _ _).
  - reflexivity.
  - reflexivity.
  - cbn. apply not_elem_of_nil.
  - cbn. apply not_elem_of_nil.
  - reflexivity.
  - reflexivity.
Defined.

(** C2 does not hold as stated: with 30 seconds left (inside the claimed
    window) a tick on a fresh container leaves the display normal, and with
    30 min 30 s left (outside it) the tick shows the warning. *)
Lemma warning_window_differs :
  remaining 28770000 (this Sample.opened) = Num 30000
  /\ 0 < 30000 <= 1800000
  /\ display_state (updateDutyTimer 28770000 28770000 Sample.opened) = normal
  /\ remaining 26970000 (this Sample.opened) = Num 1830000
  /\ ~ (0 < 1830000 <= 1800000)
  /\ display_state (updateDutyTimer 26970000 26970000 Sample.opened) = warning.
Proof. repeat split; try reflexivity; lia. Qed.

(** ** The end-of-shift signal *)

Lemma this_ticks ts p : this (ticks ts p) = this p.
Proof.
  revert p. induction ts as [| t ts IH]; intros p; [reflexivity |].
  cbn. unfold ticks in IH. rewrite IH. apply this_updateDutyTimer.
Qed.

(** C1, as amended.  The end-of-shift signal is raised by every tick at
    which nothing remains, and by no other tick: over any sequence of ticks
    the number of calls of [showEndOfShiftModal] grows by the number of
    ticks whose remaining time is 0. *)
Theorem signal_at_every_zero_tick (ts : list (Z * Z)) (p : Page) :
  signals (ticks ts p) =
  (signals p + length (filter (λ t, remaining t.1 (this p) = Num 0) ts))%nat.
Proof.
  revert p. induction ts as [| [now now_modal] ts IH]; intros p.
  - cbn. lia.
  - change (ticks ((now, now_modal) :: ts) p)
      with (ticks ts (updateDutyTimer now now_modal p)).
    rewrite IH, signals_updateDutyTimer, this_updateDutyTimer.
    rewrite filter_cons. cbn [fst].
    destruct (remaining now (this p)) as [| r] eqn:Hr; cbn [JS.strict_eq].
    + rewrite decide_False by done. lia.
    + destruct (decide (r = 0)) as [-> | Hne].
      * rewrite bool_decide_eq_true_2, decide_True by done. cbn. lia.
      * rewrite bool_decide_eq_false_2, decide_False by congruence. lia.
Qed.

(** C1 does not hold as stated: two ticks in a row with nothing remaining
    raise the signal twice. *)
Lemma signal_raised_again :
  let p1 := updateDutyTimer 28800000 28800000 Sample.opened in
  let p2 := updateDutyTimer 28801000 28801000 p1 in
  remaining 28800000 (this Sample.opened) = Num 0
  /\ remaining 28801000 (this p1) = Num 0
  /\ signals Sample.opened = 0%nat
  /\ signals p1 = 1%nat
  /\ signals p2 = 2%nat.
Proof. repeat split; reflexivity. Qed.

(** ** Overtime *)

Lemma this_requestOvertime p :
  this (requestOvertime p) = set_shiftDuration (shiftDuration (this p) + 7200000) (this p).
Proof. reflexivity. Qed.

Lemma signals_requestOvertime p : signals (requestOvertime p) = signals p.
Proof.
  unfold signals, requestOvertime; cbn.
  rewrite filter_app, length_app, filter_cons, decide_False by done.
  cbn. lia.
Qed.

Lemma dutyTimer_requestOvertime p :
  getElementById "dutyTimer" (requestOvertime p) = getElementById "dutyTimer" p.
Proof.
  unfold requestOvertime.
  change (getElementById "dutyTimer"
            (update_element "endShiftModal" (classList_remove "open") p)
          = getElementById "dutyTimer" p).
  by lookup_element.
Qed.

(** A tick never takes a class away from the timer container. *)
Lemma dutyTimer_classes_stay now now_modal p el c :
  getElementById "dutyTimer" p = Some el ->
  c ∈ classList el ->
  exists el', getElementById "dutyTimer" (updateDutyTimer now now_modal p) = Some el'
              /\ c ∈ classList el'.
Proof.
  intros Hel Hc. unfold updateDutyTimer, showEndOfShiftModal.
  repeat case_match; lookup_element; rewrite Hel; cbn [fmap option_fmap option_map];
    eexists; (split; [reflexivity |]); auto using classList_add_mono.
Qed.

Lemma critical_stays now now_modal p :
  display_state p = critical ->
  display_state (updateDutyTimer now now_modal p) = critical.
Proof.
  unfold display_state. intros Hc.
  destruct (getElementById "dutyTimer" p) as [el |] eqn:Hel; [| done].
  destruct (decide ("critical" ∈ classList el)) as [Hin |]; [| by case_decide].
  destruct (dutyTimer_classes_stay now now_modal p el _ Hel Hin) as (el' & -> & Hin').
  by rewrite decide_True.
Qed.

(** C4, as amended.  A request for overtime adds exactly 7,200,000 ms to
    [shiftDuration], so the remaining time at any instant becomes
    [max(0, old shiftDuration + 2 h - elapsed)]: from the critical state
    that is at most 2 h, and 2 h only when the elapsed time equals the old
    shift length.  The modal is closed, the critical state of the display
    stays, and each later tick at which nothing remains raises the
    end-of-shift signal again. *)
Theorem overtime_extends_shift (now now_modal : Z) (p : Page) (s : Z) :
  dutyStartTime (this p) = Some (Num s) ->
  let q := requestOvertime p in
  shiftDuration (this q) = shiftDuration (this p) + 7200000
  /\ remaining now (this q)
     = Num (Z.max 0 (shiftDuration (this p) + 7200000 - (now - s)))
  /\ (remaining now (this p) = Num 0 ->
      exists r, remaining now (this q) = Num r /\ 0 <= r <= 7200000
                /\ (r = 7200000 <-> now - s = shiftDuration (this p)))
  /\ (forall el, getElementById "endShiftModal" q = Some el -> "open" ∉ classList el)
  /\ (display_state p = critical ->
      display_state (updateDutyTimer now now_modal q) = critical)
  /\ (remaining now (this q) = Num 0 ->
      signals (updateDutyTimer now now_modal q) = S (signals p)).
Proof.
  intros Hs q. subst q.
  assert (Hq : remaining now (this (requestOvertime p))
               = Num (Z.max 0 (shiftDuration (this p) + 7200000 - (now - s)))).
  { rewrite this_requestOvertime. by rewrite (remaining_valid now _ s). }
  split; [reflexivity |]. split; [exact Hq |]. split; [| split; [| split]].
  - rewrite (remaining_valid now _ _ Hs). intros [= Hzero].
    eexists. split; [exact Hq |]. split; [lia |]. split; lia.
  - intros el. unfold requestOvertime.
    change (getElementById "endShiftModal"
              (update_element "endShiftModal" (classList_remove "open") p) = Some el
            -> "open" ∉ classList el).
    lookup_element. destruct (getElementById "endShiftModal" p) as [el0 |]; [| done].
    intros [= <-]. apply classList_remove_elem.
  - intros Hc. apply critical_stays.
    rewrite <- Hc. apply display_state_lookup, dutyTimer_requestOvertime.
  - intros Hzero. rewrite signals_updateDutyTimer, Hzero, signals_requestOvertime.
    unfold JS.strict_eq. rewrite bool_decide_eq_true_2 by done. lia.
Qed.

Lemma overtime_extends_shift_witness :
  dutyStartTime (this Sample.overdue) = Some (Num 0)
  /\ shiftDuration (this (requestOvertime Sample.overdue)) = 36000000.
Proof.
  split; [reflexivity |].
  exact (proj1 (overtime_extends_shift 0 0 Sample.overdue 0 eq_refl)).
Defined.

(** C4 does not hold as stated: from the critical state five seconds past
    the end, overtime brings the remaining time from 0 to 1 h 59 min 55 s,
    not to 2 h, and at the next tick, with more than 30 minutes left, the
    display is still critical. *)
Lemma overtime_keeps_critical :
  display_state Sample.overdue = critical
  /\ remaining 28805000 (this Sample.overdue) = Num 0
  /\ remaining 28805000 (this (requestOvertime Sample.overdue)) = Num 7195000
  /\ 7195000 <> 0 + 7200000
  /\ remaining 28806000 (this (requestOvertime Sample.overdue)) = Num 7194000
  /\ 1800000 < 7194000
  /\ display_state (updateDutyTimer 28806000 28806000 (requestOvertime Sample.overdue)) = critical
  /\ display_state (updateDutyTimer 28806000 28806000 (requestOvertime Sample.overdue)) <> normal.
Proof.
  repeat split; try (vm_compute; reflexivity); try lia.
  vm_compute. discriminate.
Qed.

(** ** Starting, ending and restarting a shift *)

Section Shift.

Context `{DateHost}.

Lemma this_startDutyTimer t_start t_tick t_modal p :
  this (startDutyTimer t_start t_tick t_modal p) =
  set_dutyTimerInterval (next_interval p)
    (set_dutyStartTime (effective_start t_start (getItem "duty_start_time" p)) (this p)).
Proof.
  unfold startDutyTimer, effective_start.
  destruct (JS.truthy (getItem "duty_start_time" p));
    cbn; rewrite this_updateDutyTimer; reflexivity.
Qed.

Lemma localStorage_startDutyTimer t_start t_tick t_modal p :
  localStorage (startDutyTimer t_start t_tick t_modal p) =
  if JS.truthy (getItem "duty_start_time" p) then localStorage p
  else <["duty_start_time" := toISOString t_start]> (localStorage p).
Proof.
  unfold startDutyTimer.
  destruct (JS.truthy (getItem "duty_start_time" p));
    cbn; rewrite localStorage_updateDutyTimer; reflexivity.
Qed.

Lemma truthy_Some_iff (s : string) : JS.truthy (Some s) = true <-> s <> "".
Proof.
  unfold JS.truthy. rewrite negb_true_iff, bool_decide_eq_false. tauto.
Qed.

Lemma truthy_false_iff (v : option string) :
  JS.truthy v = false <-> v = None \/ v = Some "".
Proof.
  destruct v as [s |]; cbn.
  - rewrite negb_false_iff, bool_decide_eq_true. split; [intros ->; by right |].
    by intros [| [= ->]].
  - split; [by left | done].
Qed.

(** With nothing usable stored, the shift starts at the clock reading,
    which is stored. *)
Lemma start_fresh t_start t_tick t_modal p :
  getItem "duty_start_time" p = None \/ getItem "duty_start_time" p = Some "" ->
  dutyStartTime (this (startDutyTimer t_start t_tick t_modal p)) = Some (Num t_start)
  /\ getItem "duty_start_time" (startDutyTimer t_start t_tick t_modal p)
     = Some (toISOString t_start).
Proof.
  intros Hnone. unfold getItem at 1.
  rewrite this_startDutyTimer, localStorage_startDutyTimer. unfold effective_start.
  rewrite (proj2 (truthy_false_iff _) Hnone).
  split; [reflexivity | apply lookup_insert_eq].
Qed.


(** C3, as amended.  With no stored start time, or an empty one,
    [startDutyTimer] takes the clock reading as the start of the shift and
    stores it.  A stored string that is not empty and does not parse is not
    treated as absent: the start becomes the invalid date, the stored
    string stays, and every tick computes [NaN] and shows [NaN:NaN:NaN].
    The function is total: no error is raised in either case. *)
Theorem start_without_usable_value (t_start t_tick t_modal : Z) (p : Page) :
  let q := startDutyTimer t_start t_tick t_modal p in
  (getItem "duty_start_time" p = None \/ getItem "duty_start_time" p = Some "" ->
     dutyStartTime (this q) = Some (Num t_start)
     /\ getItem "duty_start_time" q = Some (toISOString t_start))
  /\ (forall s, getItem "duty_start_time" p = Some s -> s <> "" -> Date_parse s = NaN ->
     dutyStartTime (this q) = Some NaN
     /\ getItem "duty_start_time" q = Some s
     /\ forall now, remaining now (this q) = NaN
                    /\ timeStr (remaining now (this q)) = "NaN:NaN:NaN").
Proof.
  intros q. subst q. split; [apply start_fresh |].
  intros s Hs Hne Hnan. unfold getItem at 1.
  rewrite this_startDutyTimer, localStorage_startDutyTimer. unfold effective_start.
  rewrite Hs, (proj2 (truthy_Some_iff s) Hne); cbn.
  rewrite Hnan. repeat split; try reflexivity. exact Hs.
Qed.

(** C9.  [endShift] and [logout] both remove the stored start time, and
    the next load of the console starts a fresh shift: its start is the
    clock reading of that load, stored anew. *)
Theorem end_and_logout_clear_start (p : Page) (html : gmap string Element)
    (t_start t_tick t_modal : Z) :
  getItem "duty_start_time" (endShift p) = None
  /\ getItem "duty_start_time" (logout p) = None
  /\ (let q := dispatch (DOMContentLoaded html t_start t_tick t_modal) (endShift p) in
      dutyStartTime (this q) = Some (Num t_start)
      /\ getItem "duty_start_time" q = Some (toISOString t_start))
  /\ (let q := dispatch (DOMContentLoaded html t_start t_tick t_modal) (logout p) in
      dutyStartTime (this q) = Some (Num t_start)
      /\ getItem "duty_start_time" q = Some (toISOString t_start)).
Proof.
  assert (Hend : getItem "duty_start_time" (endShift p) = None).
  { unfold endShift, getItem; cbn. destruct (dutyTimerInterval (this p)); apply lookup_delete_eq. }
  assert (Hout : getItem "duty_start_time" (logout p) = None).
  { unfold logout, getItem; cbn. destruct (dutyTimerInterval (this p)); apply lookup_delete_eq. }
  assert (Hfresh : forall q0, getItem "duty_start_time" q0 = None ->
            let q := dispatch (DOMContentLoaded html t_start t_tick t_modal) q0 in
            dutyStartTime (this q) = Some (Num t_start)
            /\ getItem "duty_start_time" q = Some (toISOString t_start)).
  { intros q0 Hq0 q. subst q. unfold dispatch, init, bindEvents.
    set (f := fresh_page html (localStorage q0)).
    assert (Hf : getItem "duty_start_time" f = None) by exact Hq0.
    destruct (start_fresh t_start t_tick t_modal f (or_introl Hf)) as [Hstart Hstored].
    unfold getItem in *.
    repeat case_match; cbn; by rewrite ?Hstart, ?Hstored. }
  repeat split; try done; by apply Hfresh.
Qed.

End Shift.

(** ** Runs of the page *)

Section Runs.

Context `{DateHost}.

Lemma this_init t_start t_tick t_modal p :
  this (init t_start t_tick t_modal p) = this (startDutyTimer t_start t_tick t_modal p).
Proof. unfold init, bindEvents. repeat case_match; reflexivity. Qed.

Lemma localStorage_init t_start t_tick t_modal p :
  localStorage (init t_start t_tick t_modal p)
  = localStorage (startDutyTimer t_start t_tick t_modal p).
Proof. unfold init, bindEvents. repeat case_match; reflexivity. Qed.

(** What one event does to the length of the shift. *)
Lemma shiftDuration_dispatch (e : Event) (p : Page) :
  shiftDuration (this (dispatch e p)) =
  if is_load e then 28800000
  else if overtime_granted e p then shiftDuration (this p) + 7200000
  else shiftDuration (this p).
Proof.
  destruct e; cbn [is_load overtime_granted];
    try (unfold dispatch; rewrite this_init, this_startDutyTimer; reflexivity);
    unfold dispatch, when_bound;
    try (unfold closeModal, selectCamera, toggleTheme, toggleSound, logout, endShift, clearInterval;
         repeat case_match; rewrite ?this_updateDutyTimer; reflexivity).
  destruct (getElementById "requestOvertimeBtn" p) as [el |] eqn:Hel.
  - by rewrite bool_decide_eq_true_2 by (by eexists).
  - rewrite bool_decide_eq_false_2; [reflexivity |]. by intros [el Hel'].
Qed.

Lemma run_snoc es e p : run (es ++ [e]) p = dispatch e (run es p).
Proof. unfold run. by rewrite foldl_app. Qed.

Lemma shiftDuration_run html storage t_start t_tick t_modal es :
  28800000 <= shiftDuration (this (run es (first_load html storage t_start t_tick t_modal))).
Proof.
  induction es as [| e es IH] using rev_ind.
  - unfold run, first_load. cbn [foldl].
    rewrite this_init, this_startDutyTimer. cbn. lia.
  - rewrite run_snoc, shiftDuration_dispatch.
    destruct (is_load e); [lia |]. destruct (overtime_granted e _); lia.
Qed.

(** C10.  [shiftDuration] is 8 hours (28,800,000 ms) in the object as
    declared; the only event of a loaded page that changes it is the click
    that reaches [requestOvertime], which adds exactly 7,200,000 ms (a new
    load starts again from 8 hours); so it never decreases while the page
    lives and is at least 28,800,000 after every event of every run. *)
Theorem shiftDuration_never_below_eight_hours :
  shiftDuration SecurityMonitor = 28800000
  /\ (forall p, shiftDuration (this (requestOvertime p)) = shiftDuration (this p) + 7200000)
  /\ (forall e p,
        shiftDuration (this (dispatch e p)) =
        if is_load e then 28800000
        else if overtime_granted e p then shiftDuration (this p) + 7200000
        else shiftDuration (this p))
  /\ (forall e p, is_load e = false ->
        shiftDuration (this p) <= shiftDuration (this (dispatch e p)))
  /\ (forall html storage t_start t_tick t_modal es,
        28800000 <= shiftDuration (this (run es (first_load html storage t_start t_tick t_modal)))).
Proof.
  split; [reflexivity |]. split; [reflexivity |].
  split; [exact shiftDuration_dispatch |]. split.
  - intros e p Hload. rewrite shiftDuration_dispatch, Hload.
    destruct (overtime_granted e p); lia.
  - exact shiftDuration_run.
Qed.

(** *** Recovery after a reload *)

Lemma started_at_frame t0 p q :
  dutyStartTime (this q) = dutyStartTime (this p) ->
  getItem "duty_start_time" q = getItem "duty_start_time" p ->
  started_at t0 p -> started_at t0 q.
Proof. unfold started_at. by intros -> ->. Qed.

Lemma started_at_load t0 html t_start t_tick t_modal p :
  Date_parse (toISOString t0) = Num t0 ->
  toISOString t0 <> "" ->
  started_at t0 p ->
  started_at t0 (init t_start t_tick t_modal (fresh_page html (localStorage p))).
Proof.
  intros Hparse Hne (_ & Hk). unfold started_at, getItem.
  set (f := fresh_page html (localStorage p)).
  assert (Hf : getItem "duty_start_time" f = Some (toISOString t0)) by exact Hk.
  rewrite this_init, localStorage_init, this_startDutyTimer, localStorage_startDutyTimer.
  unfold effective_start. rewrite Hf, (proj2 (truthy_Some_iff _) Hne); cbn.
  by rewrite Hparse.
Qed.

Lemma started_at_dispatch t0 e p :
  Date_parse (toISOString t0) = Num t0 ->
  toISOString t0 <> "" ->
  keeps_start e = true ->
  started_at t0 p -> started_at t0 (dispatch e p).
Proof.
  intros Hparse Hne Hkeep Hinv.
  destruct e as [html ts tt tm | id now nm | cam | | ty | | | | | [|] | | | id | id];
    try discriminate Hkeep;
    try (by apply started_at_load);
    unfold dispatch, when_bound; try exact Hinv.
  - destruct (intervals p !! id) as [[|] |]; try exact Hinv.
    apply (started_at_frame t0 p); [by rewrite this_updateDutyTimer | | exact Hinv].
    unfold getItem. by rewrite localStorage_updateDutyTimer.
  - destruct (getElementById "themeToggle" p); [| exact Hinv].
    apply (started_at_frame t0 p); [reflexivity | | exact Hinv].
    unfold toggleTheme, getItem, setItem; cbn. by apply lookup_insert_ne.
  - destruct (getElementById "soundToggle" p); [| exact Hinv].
    by apply (started_at_frame t0 p).
  - by destruct (getElementById "logoutBtn" p).
  - destruct (getElementById "requestOvertimeBtn" p); [| exact Hinv].
    by apply (started_at_frame t0 p).
  - unfold closeModal. repeat case_match; exact Hinv.
  - unfold closeModal. repeat case_match; exact Hinv.
Qed.

Lemma started_at_run t0 es p :
  Date_parse (toISOString t0) = Num t0 ->
  toISOString t0 <> "" ->
  forallb keeps_start es = true ->
  started_at t0 p -> started_at t0 (run es p).
Proof.
  intros Hparse Hne. revert p.
  induction es as [| e es IH]; intros p Hkeep Hinv; [exact Hinv |].
  cbn in Hkeep. apply andb_true_iff in Hkeep as [He Hes].
  change (run (e :: es) p) with (run es (dispatch e p)).
  apply IH; [exact Hes |]. by apply started_at_dispatch.
Qed.

Lemma started_at_first_load t0 html storage t_tick t_modal :
  storage !! "duty_start_time" = None \/ storage !! "duty_start_time" = Some "" ->
  started_at t0 (first_load html storage t0 t_tick t_modal).
Proof.
  intros Hnone. unfold started_at, first_load, getItem.
  rewrite this_init, localStorage_init.
  destruct (start_fresh t0 t_tick t_modal (fresh_page html storage) Hnone) as [Hs Hk].
  by rewrite Hs.
Qed.

(** The string a tick writes depends on the page only through the start
    and the length of the shift. *)
Lemma text_after_tick now now_modal p :
  textContent <$> getElementById "dutyTimerValue" (updateDutyTimer now now_modal p)
  = (λ _, timeStr (remaining now (this p))) <$> getElementById "dutyTimerValue" p.
Proof.
  destruct (getElementById "dutyTimerValue" p) as [el |] eqn:Hel.
  - by rewrite (textContent_updateDutyTimer _ _ _ _ Hel).
  - unfold updateDutyTimer, showEndOfShiftModal.
    repeat case_match; lookup_element; by rewrite Hel.
Qed.

Lemma element_present_after_update {A} (x : A) id id' f p :
  (λ _, x) <$> getElementById id (update_element id' f p)
  = (λ _, x) <$> getElementById id p.
Proof.
  destruct (decide (id' = id)) as [-> | Hne].
  - rewrite lookup_update_element_eq. by destruct (getElementById id p).
  - by rewrite lookup_update_element_ne.
Qed.

Lemma element_present_after_tick {A} (x : A) id now now_modal p :
  (λ _, x) <$> getElementById id (updateDutyTimer now now_modal p)
  = (λ _, x) <$> getElementById id p.
Proof.
  unfold updateDutyTimer, showEndOfShiftModal.
  repeat case_match;
    repeat first [rewrite element_present_after_update | rewrite lookup_emit];
    reflexivity.
Qed.

Lemma element_present_after_ticks {A} (x : A) id ts p :
  (λ _, x) <$> getElementById id (ticks ts p) = (λ _, x) <$> getElementById id p.
Proof.
  revert p. induction ts as [| t ts IH]; intros p; [reflexivity |].
  change (ticks (t :: ts) p) with (ticks ts (updateDutyTimer t.1 t.2 p)).
  by rewrite IH, element_present_after_tick.
Qed.

(** C7.  A tick recomputes from the clock: with a valid start, whatever
    ticks ran before, the remaining time at [now] is
    [max(0, shiftDuration - (now - start))] and the tick at [now] writes its
    rendering to the timer.  A reload brings back the start of the shift
    but not its length: after any run of the console that does not end the
    shift (reloads and overtime included), the page has the start it was
    first given, provided the stored ISO string of the start reads back as
    the start; loaded again, it computes [max(0, 8 h - (now - t0))].  That
    is the remaining time of the page that was not loaded again when no
    overtime is in force there, and less when overtime is in force and
    the extended shift is not over. *)
Theorem tick_recomputes_from_clock (now now_modal : Z) :
  (forall ts p s el,
     dutyStartTime (this p) = Some (Num s) ->
     getElementById "dutyTimerValue" p = Some el ->
     remaining now (this (ticks ts p)) = Num (Z.max 0 (shiftDuration (this p) - (now - s)))
     /\ textContent <$> getElementById "dutyTimerValue" (updateDutyTimer now now_modal (ticks ts p))
        = Some (timeStr (Num (Z.max 0 (shiftDuration (this p) - (now - s))))))
  /\ (forall html storage t0 t_tick t_modal es html' t_start' t_tick' t_modal',
       storage !! "duty_start_time" = None \/ storage !! "duty_start_time" = Some "" ->
       Date_parse (toISOString t0) = Num t0 ->
       toISOString t0 <> "" ->
       forallb keeps_start es = true ->
       let p := run es (first_load html storage t0 t_tick t_modal) in
       let q := dispatch (DOMContentLoaded html' t_start' t_tick' t_modal') p in
       remaining now (this p) = Num (Z.max 0 (shiftDuration (this p) - (now - t0)))
       /\ remaining now (this q) = Num (Z.max 0 (28800000 - (now - t0)))
       /\ (shiftDuration (this p) = 28800000 ->
           remaining now (this q) = remaining now (this p))
       /\ (28800000 < shiftDuration (this p) -> now - t0 < shiftDuration (this p) ->
           exists r r', remaining now (this q) = Num r /\ remaining now (this p) = Num r'
                        /\ r < r')).
Proof.
  split.
  - intros ts p s el Hs Hel. rewrite this_ticks.
    split; [by apply remaining_valid |].
    rewrite text_after_tick, this_ticks, (remaining_valid now _ _ Hs).
    pose proof (element_present_after_ticks
                  (timeStr (Num (Z.max 0 (shiftDuration (this p) - (now - s)))))
                  "dutyTimerValue" ts p) as Hpresent.
    rewrite Hpresent, Hel. reflexivity.
  - intros html storage t0 t_tick t_modal es html' t_start' t_tick' t_modal'
      Hnone Hparse Hne Hkeep p q.
    pose proof (started_at_first_load t0 html storage t_tick t_modal Hnone) as H0.
    pose proof (started_at_run t0 es _ Hparse Hne Hkeep H0) as Hp. fold p in Hp.
    pose proof (started_at_dispatch t0 (DOMContentLoaded html' t_start' t_tick' t_modal') p
                  Hparse Hne eq_refl Hp) as Hq. fold q in Hq.
    pose proof (shiftDuration_dispatch (DOMContentLoaded html' t_start' t_tick' t_modal') p)
      as Hd. cbn [is_load] in Hd. fold q in Hd.
    destruct Hp as [Hsp _], Hq as [Hsq _].
    rewrite (remaining_valid now _ _ Hsp), (remaining_valid now _ _ Hsq), Hd.
    split; [reflexivity |]. split; [reflexivity |]. split.
    + by intros ->.
    + intros Hover Hnow. eexists _, _. split; [reflexivity |]. split; [reflexivity |]. lia.
Qed.

End Runs.

(** ** The stored start reads back

    The instance of the date built-ins keeps what the monitor relies on:
    the ISO string of a valid time value parses back to that time value,
    to the millisecond. *)

Module ISO8601_facts.

Import ISO8601.

Lemma era_day_facts doe :
  0 <= doe <= 146096 ->
  let yoe := (doe - doe / 1460 + doe / 36524 - doe / 146096) / 365 in
  let doy := doe - (365 * yoe + yoe / 4 - yoe / 100) in
  0 <= yoe <= 399 /\ 0 <= doy <= 365
  /\ (doy = 365 -> (yoe + 1) mod 4 = 0 /\ ((yoe + 1) mod 100 <> 0 \/ (yoe + 1) mod 400 = 0)).
Proof.
  intros H yoe doy. subst yoe doy.
  Z.to_euclidean_division_equations; lia.
Qed.

Lemma is_leap_era y era : is_leap (y + era * 400) = is_leap y.
Proof.
  unfold is_leap.
  replace ((y + era * 400) mod 4) with (y mod 4)
    by (Z.to_euclidean_division_equations; lia).
  replace ((y + era * 400) mod 100) with (y mod 100)
    by (Z.to_euclidean_division_equations; lia).
  replace ((y + era * 400) mod 400) with (y mod 400)
    by (Z.to_euclidean_division_equations; lia).
  reflexivity.
Qed.

Lemma month_day_facts doy :
  0 <= doy <= 365 ->
  let mp := (5 * doy + 2) / 153 in
  let d := doy - (153 * mp + 2) / 5 + 1 in
  let m := if decide (mp < 10) then mp + 3 else mp - 9 in
  0 <= mp <= 11 /\ 1 <= m <= 12
  /\ (if decide (m <= 2) then m + 9 else m - 3) = mp
  /\ 1 <= d
  /\ (m <> 2 -> forall y, d <= days_in_month y m)
  /\ (m = 2 -> d <= 29 /\ (d = 29 -> doy = 365)).
Proof.
  intros Hdoy mp d m.
  assert (Hmp : 0 <= mp <= 11) by (subst mp; Z.to_euclidean_division_equations; lia).
  assert (Hk : 153 * mp <= 5 * doy + 2 < 153 * (mp + 1))
    by (subst mp; Z.to_euclidean_division_equations; lia).
  assert (Hcases : mp = 0 \/ mp = 1 \/ mp = 2 \/ mp = 3 \/ mp = 4 \/ mp = 5 \/ mp = 6
                   \/ mp = 7 \/ mp = 8 \/ mp = 9 \/ mp = 10 \/ mp = 11) by lia.
  subst d m. clearbody mp. unfold days_in_month.
  repeat (destruct Hcases as [-> | Hcases]); try subst mp;
    repeat (first [rewrite decide_True by lia | rewrite decide_False by lia]);
    repeat split; intros;
    repeat (first [rewrite decide_True by lia | rewrite decide_False by lia]);
    Z.to_euclidean_division_equations; lia.
Qed.

Lemma civil_from_days_spec z y m d :
  civil_from_days z = (y, m, d) ->
  days_from_civil y m d = z /\ 1 <= m <= 12 /\ 1 <= d <= days_in_month y m
  /\ (z + 719468) / 146097 * 400 <= y <= (z + 719468) / 146097 * 400 + 400.
Proof.
  unfold civil_from_days.
  set (z' := z + 719468). set (era := z' / 146097).
  set (doe := z' - era * 146097).
  assert (Hdoe : 0 <= doe <= 146096)
    by (subst doe era; Z.to_euclidean_division_equations; lia).
  pose proof (era_day_facts doe Hdoe) as Hera. cbv zeta in Hera.
  set (yoe := (doe - doe / 1460 + doe / 36524 - doe / 146096) / 365) in *.
  set (doy := doe - (365 * yoe + yoe / 4 - yoe / 100)) in *.
  destruct Hera as (Hyoe & Hdoy & Hleap).
  pose proof (month_day_facts doy Hdoy) as Hmonth. cbv zeta in Hmonth.
  set (mp := (5 * doy + 2) / 153) in *.
  set (m0 := if decide (mp < 10) then mp + 3 else mp - 9) in *.
  set (d0 := doy - (153 * mp + 2) / 5 + 1) in *.
  destruct Hmonth as (Hmp & Hm & Hinv & Hd1 & Hother & Hfeb).
  intros [= <- <- <-].
  assert (Hera' : (yoe + era * 400) / 400 = era)
    by (Z.to_euclidean_division_equations; lia).
  split; [| split; [exact Hm | split; [split; [exact Hd1 |] |] ] ].
  - unfold days_from_civil. rewrite Hinv.
    replace (if decide (m0 <= 2) then (if decide (m0 <= 2) then yoe + era * 400 + 1
                                       else yoe + era * 400) - 1
             else (if decide (m0 <= 2) then yoe + era * 400 + 1 else yoe + era * 400))
      with (yoe + era * 400) by (destruct (decide (m0 <= 2)); lia).
    rewrite Hera'.
    replace (yoe + era * 400 - era * 400) with yoe by lia.
    subst d0 doy doe z'. lia.
  - destruct (decide (m0 = 2)) as [Hm2 | Hm2]; [| by apply Hother].
    destruct (Hfeb Hm2) as [H29 Hlast].
    rewrite decide_True by lia. rewrite Hm2. unfold days_in_month.
    rewrite decide_True by done.
    replace (yoe + era * 400 + 1) with (yoe + 1 + era * 400) by lia.
    rewrite is_leap_era.
    destruct (decide (d0 = 29)) as [Hd | Hd].
    + destruct (Hleap (Hlast Hd)) as [H4 H100]. unfold is_leap.
      rewrite (bool_decide_eq_true_2 _ H4). cbn [andb].
      destruct H100 as [H100 | H400].
      * rewrite (bool_decide_eq_false_2 _ H100). cbn. lia.
      * rewrite (bool_decide_eq_true_2 _ H400). rewrite orb_true_r. lia.
    + destruct (is_leap (yoe + 1)); lia.
  - fold era. destruct (decide (m0 <= 2)); lia.
Qed.

Lemma append_cons x (a b : string) : String x a +:+ b = String x (a +:+ b).
Proof. reflexivity. Qed.

Lemma append_empty (b : string) : "" +:+ b = b.
Proof. reflexivity. Qed.

Lemma append_assoc (a b c : string) : (a +:+ b) +:+ c = a +:+ (b +:+ c).
Proof.
  induction a as [| x a IH]; [reflexivity |].
  by rewrite !append_cons, IH.
Qed.

Lemma digit_value_digit n : digit_value (digit n) = Some (n mod 10).
Proof.
  unfold digit_value, digit.
  pose proof (Z.mod_pos_bound n 10 ltac:(lia)) as Hn.
  rewrite nat_ascii_embedding by lia.
  rewrite decide_True by lia. f_equal. lia.
Qed.

Lemma read_digits_snoc w acc s :
  read_digits (S w) acc s =
  match read_digits w acc s with
  | Some (v, String c r) =>
      match digit_value c with
      | Some x => Some (10 * v + x, r)
      | None => None
      end
  | _ => None
  end.
Proof.
  revert acc s. induction w as [| w IH]; intros acc s.
  - cbn. destruct s as [| c r]; [reflexivity |]. by destruct (digit_value c).
  - destruct s as [| c s']; [reflexivity |].
    cbn [read_digits]. destruct (digit_value c) as [v |]; [| reflexivity].
    apply IH.
Qed.

Lemma read_digits_digits w n acc rest :
  read_digits w acc (digits w n +:+ rest)
  = Some (acc * 10 ^ Z.of_nat w + n mod 10 ^ Z.of_nat w, rest).
Proof.
  revert n rest. induction w as [| w IH]; intros n rest.
  - cbn. f_equal. f_equal. rewrite Z.mod_1_r. lia.
  - cbn [digits]. rewrite append_assoc, append_cons, append_empty.
    rewrite read_digits_snoc, IH, digit_value_digit.
    f_equal. f_equal.
    rewrite Nat2Z.inj_succ, Z.pow_succ_r by lia.
    rewrite (Z.rem_mul_r n 10 (10 ^ Z.of_nat w)) by lia. lia.
Qed.


Lemma read_year_digit c s v :
  digit_value c = Some v -> read_year (String c s) = read_digits 4 0 (String c s).
Proof.
  intros Hv.
  destruct c as [[] [] [] [] [] [] [] []]; try reflexivity; vm_compute in Hv; discriminate.
Qed.

Lemma read_year_string y rest :
  -999999 <= y <= 999999 -> read_year (year_string y +:+ rest) = Some (y, rest).
Proof.
  intros Hy. unfold year_string.
  destruct (decide (0 <= y <= 9999)) as [Hsmall |]; [| destruct (decide (y < 0))].
  - pose proof (read_digits_digits 4 y 0 rest) as Hrd.
    cbn [digits] in *.
    rewrite !append_assoc, !append_cons, !append_empty in *.
    rewrite (read_year_digit _ _ _ (digit_value_digit _)), Hrd.
    change (10 ^ Z.of_nat 4) with 10000. rewrite Z.mod_small by lia.
    do 2 f_equal.
  - rewrite append_assoc, append_cons, append_empty.
    cbn [read_year]. rewrite read_digits_digits.
    change (10 ^ Z.of_nat 6) with 1000000. rewrite Z.mod_small by lia.
    rewrite decide_False by lia. do 2 f_equal. lia.
  - rewrite append_assoc, append_cons, append_empty.
    cbn [read_year]. rewrite read_digits_digits.
    change (10 ^ Z.of_nat 6) with 1000000. rewrite Z.mod_small by lia.
    do 2 f_equal.
Qed.

Lemma expect_cons c s : expect c (String c s) = Some s.
Proof. unfold expect. by rewrite decide_True. Qed.

Lemma days_in_month_le y m : days_in_month y m <= 31.
Proof. unfold days_in_month. repeat case_decide; try destruct (is_leap y); lia. Qed.

Lemma parse_format t :
  Z.abs t <= 8640000000000000 -> parse (format t) = Num t.
Proof.
  intros Ht. unfold format.
  destruct (civil_from_days (t / msPerDay)) as [[y m] d] eqn:Hc.
  destruct (civil_from_days_spec _ _ _ _ Hc) as (Hdays & Hm & Hd & Hy).
  set (r := t mod msPerDay).
  assert (Hr : 0 <= r < 86400000) by (subst r; apply Z.mod_pos_bound; done).
  assert (Hyr : -999999 <= y <= 999999).
  { unfold msPerDay in *. Z.to_euclidean_division_equations; lia. }
  unfold parse.
  rewrite !append_cons, !append_empty.
  rewrite read_year_string by done. cbn [mbind option_bind].
  repeat (first [rewrite expect_cons | rewrite read_digits_digits];
          cbn [mbind option_bind]).
  change (10 ^ Z.of_nat 2) with 100. change (10 ^ Z.of_nat 3) with 1000.
  pose proof (days_in_month_le y m) as Hdim.
  replace (0 * 100 + m mod 100) with m by (rewrite Z.mod_small; lia).
  replace (0 * 100 + d mod 100) with d by (rewrite Z.mod_small; lia).
  assert (Hfields : (r / 3600000) mod 100 = r / 3600000
                    /\ ((r / 60000) mod 60) mod 100 = (r / 60000) mod 60
                    /\ ((r / 1000) mod 60) mod 100 = (r / 1000) mod 60
                    /\ (r mod 1000) mod 1000 = r mod 1000
                    /\ r / 3600000 <= 23 /\ (r / 60000) mod 60 <= 59
                    /\ (r / 1000) mod 60 <= 59
                    /\ r / 3600000 * 3600000 + (r / 60000) mod 60 * 60000
                       + (r / 1000) mod 60 * 1000 + r mod 1000 = r).
  { clearbody r. clear -Hr. Z.to_euclidean_division_equations; lia. }
  destruct Hfields as (-> & -> & -> & -> & Hh & Hmin & Hsec & Hsum).
  rewrite decide_True by (repeat split; try done; lia).
  rewrite Hdays.
  match goal with |- context [Num ?e] => assert (He : e = t) end.
  { pose proof (Z.div_mod t msPerDay ltac:(done)) as Hdm. fold r in Hdm. lia. }
  rewrite He, decide_True by done. reflexivity.
Qed.

Lemma format_not_empty t : format t <> "".
Proof.
  unfold format. destruct (civil_from_days (t / msPerDay)) as [[y m] d].
  destruct (year_string y); rewrite ?append_cons, ?append_empty; discriminate.
Qed.

(** Every valid time value survives the trip through local storage. *)
Lemma host_reads_back t :
  Z.abs t <= 8640000000000000 ->
  Date_parse (toISOString t) = Num t /\ toISOString t <> "".
Proof. intros Ht. split; [by apply parse_format | apply format_not_empty]. Qed.

End ISO8601_facts.

(** ** Closed examples, with ISO 8601 dates *)


Lemma start_without_usable_value_witness :
  getItem "duty_start_time" Sample.damaged = Some "corrupted"
  /\ Date_parse "corrupted" = NaN
  /\ dutyStartTime (this (startDutyTimer 5000 6000 7000 Sample.damaged)) = Some NaN.
Proof.
  split; [reflexivity |]. split; [reflexivity |].
  destruct (start_without_usable_value 5000 6000 7000 Sample.damaged) as [_ Hbad].
  exact (proj1 (Hbad "corrupted" eq_refl ltac:(discriminate) eq_refl)).
Defined.

(** C3 does not hold as stated: a stored value that does not parse is not
    replaced by the clock reading.  The shift starts at the invalid date,
    the damaged string stays in local storage, and the timer has no
    remaining time to show. *)
Lemma unparseable_start_is_kept :
  let q := startDutyTimer 5000 6000 7000 Sample.damaged in
  getItem "duty_start_time" Sample.damaged = Some "corrupted"
  /\ Date_parse "corrupted" = NaN
  /\ dutyStartTime (this q) = Some NaN
  /\ dutyStartTime (this q) <> Some (Num 5000)
  /\ getItem "duty_start_time" q = Some "corrupted"
  /\ remaining 6000 (this q) = NaN
  /\ textContent <$> getElementById "dutyTimerValue" q = Some "NaN:NaN:NaN".
Proof. repeat split; try reflexivity. discriminate. Qed.

Lemma tick_recomputes_from_clock_witness :
  (dutyStartTime (this Sample.opened) = Some (Num 0)
   /\ textContent <$> getElementById "dutyTimerValue"
                        (updateDutyTimer 9000 9000 (ticks [(1000, 1000); (2000, 2000)] Sample.opened))
      = Some "07:59:51")
  /\ (forallb keeps_start Sample.reloaded_run = true
      /\ shiftDuration (this (run Sample.reloaded_run Sample.opened)) = 28800000
      /\ remaining 9000 (this (dispatch (DOMContentLoaded Sample.html 7000 7000 7000)
                                 (run Sample.reloaded_run Sample.opened)))
         = remaining 9000 (this (run Sample.reloaded_run Sample.opened))).
Proof.
  destruct (tick_recomputes_from_clock 9000 9000) as [Htick Hrun].
  split; (split; [reflexivity |]).
  - refine (proj2 (Htick [(1000, 1000); (2000, 2000)] Sample.opened 0
                     {| textContent := "08:00:00"; classList := []; style := ∅ |} _ _));
      reflexivity.
  - split; [reflexivity |].
    refine (proj1 (proj2 (proj2 (Hrun Sample.html ∅ 0 0 0 Sample.reloaded_run
                                   Sample.html 7000 7000 7000 _ _ _ _))) _).
    + left. reflexivity.
    + reflexivity.
    + vm_compute. discriminate.
    + reflexivity.
    + reflexivity.
Defined.

(** C7 does not hold as stated: the length of the shift is not stored.
    A console that was granted overtime and is loaded again has the start
    it had, in the object and in local storage, and two hours less left at
    the same instant than the console that was not loaded again. *)
Lemma restart_loses_overtime :
  let p := dispatch ClickRequestOvertime Sample.opened in
  let q := dispatch (DOMContentLoaded Sample.html 5000 5000 5000) p in
  getItem "duty_start_time" q = getItem "duty_start_time" p
  /\ dutyStartTime (this q) = dutyStartTime (this p)
  /\ remaining 6000 (this p) = Num 35994000
  /\ remaining 6000 (this q) = Num 28794000
  /\ textContent <$> getElementById "dutyTimerValue" (dispatch (IntervalFires 1 6000 6000) p)
     = Some "09:59:54"
  /\ textContent <$> getElementById "dutyTimerValue" (dispatch (IntervalFires 1 6000 6000) q)
     = Some "07:59:54".
Proof. repeat split; vm_compute; reflexivity. Qed.

(** The listeners still run on a page that is being left: after the shift
    was ended, a click on the overtime button extends the shift and a click
    on the sound button mutes. *)
Lemma listeners_run_while_leaving :
  let p := run [ClickConfirmEndShift; ClickRequestOvertime; ClickSoundToggle] Sample.opened in
  location p = Some "../../index.html"
  /\ shiftDuration (this p) = 36000000
  /\ soundEnabled (this p) = false.
Proof. repeat split. Qed.

Lemma shiftDuration_never_below_eight_hours_witness :
  is_load ClickRequestOvertime = false
  /\ shiftDuration (this Sample.overdue)
     <= shiftDuration (this (dispatch ClickRequestOvertime Sample.overdue)).
Proof.
  split; [reflexivity |].
  destruct shiftDuration_never_below_eight_hours as (_ & _ & _ & Hmono & _).
  apply Hmono. reflexivity.
Defined.

(** ** The theme button *)




Lemma toggleTheme_in_cycle p :
  theme (toggleTheme p) = Some "light" \/ theme (toggleTheme p) = Some "dark"
  \/ theme (toggleTheme p) = Some "default".
Proof.
  unfold toggleTheme; cbn [theme setItem with_localStorage with_theme].
  repeat case_decide; auto.
Qed.


Section Reloads.

Context `{DateHost}.

Lemma theme_updateDutyTimer now now_modal p :
  theme (updateDutyTimer now now_modal p) = theme p.
Proof. unfold updateDutyTimer. repeat case_match; reflexivity. Qed.

Lemma theme_startDutyTimer t_start t_tick t_modal p :
  theme (startDutyTimer t_start t_tick t_modal p) = theme p.
Proof.
  unfold startDutyTimer. destruct (JS.truthy (getItem "duty_start_time" p));
    cbn [negb setInterval]; by rewrite theme_updateDutyTimer.
Qed.

Lemma element_present_after_start {A} (x : A) id t_start t_tick t_modal p :
  (λ _, x) <$> getElementById id (startDutyTimer t_start t_tick t_modal p)
  = (λ _, x) <$> getElementById id p.
Proof.
  unfold startDutyTimer. destruct (JS.truthy (getItem "duty_start_time" p));
    cbn [negb setInterval]; by rewrite element_present_after_tick.
Qed.

Lemma security_theme_startDutyTimer t_start t_tick t_modal p :
  getItem "security_theme" (startDutyTimer t_start t_tick t_modal p)
  = getItem "security_theme" p.
Proof.
  unfold getItem. rewrite localStorage_startDutyTimer.
  destruct (JS.truthy _); [reflexivity | by apply lookup_insert_ne].
Qed.

(** What a load makes of the theme. *)
Lemma theme_init t_start t_tick t_modal p :
  theme (init t_start t_tick t_modal p) =
  match getElementById "themeToggle" p with
  | Some _ => if JS.truthy (getItem "security_theme" p)
              then getItem "security_theme" p else theme p
  | None => theme p
  end.
Proof.
  unfold init, bindEvents.
  pose proof (element_present_after_start tt "themeToggle" t_start t_tick t_modal p) as Hel.
  rewrite security_theme_startDutyTimer.
  destruct (getElementById "themeToggle" (startDutyTimer t_start t_tick t_modal p)),
    (getElementById "themeToggle" p); try discriminate Hel.
  - destruct (JS.truthy (getItem "security_theme" p)); cbn; [reflexivity |].
    apply theme_startDutyTimer.
  - cbn. apply theme_startDutyTimer.
Qed.

(** X2.  The theme survives a reload: when the console is loaded again
    after a click on the theme button, [bindEvents] puts back the theme the
    click had set, provided the new page has the theme button; without the
    button no theme is set. *)
Theorem theme_survives_reload (p : Page) (html : gmap string Element)
    (t_start t_tick t_modal : Z) :
  let q := dispatch (DOMContentLoaded html t_start t_tick t_modal) (toggleTheme p) in
  (is_Some (html !! "themeToggle") -> theme q = theme (toggleTheme p))
  /\ (html !! "themeToggle" = None -> theme q = None).
Proof.
  intros q. subst q. unfold dispatch. rewrite theme_init.
  change (getElementById "themeToggle" (fresh_page html (localStorage (toggleTheme p))))
    with (html !! "themeToggle").
  change (getItem "security_theme" (fresh_page html (localStorage (toggleTheme p))))
    with (getItem "security_theme" (toggleTheme p)).
  assert (Hsaved : getItem "security_theme" (toggleTheme p) = theme (toggleTheme p)).
  { unfold toggleTheme, getItem, setItem; cbn. apply lookup_insert_eq. }
  split.
  - intros [el ->]. rewrite Hsaved.
    destruct (toggleTheme_in_cycle p) as [-> | [-> | ->]]; reflexivity.
  - intros ->. reflexivity.
Qed.

(** *** The duty timer interval *)

Lemma duty_interval_frame p q :
  intervals q = intervals p -> location q = location p ->
  dutyTimerInterval (this q) = dutyTimerInterval (this p) ->
  duty_interval_kept p -> duty_interval_kept q.
Proof. unfold duty_interval_kept. by intros -> -> ->. Qed.

Lemma next_interval_updateDutyTimer now now_modal p :
  next_interval (updateDutyTimer now now_modal p) = next_interval p.
Proof. unfold updateDutyTimer. repeat case_match; reflexivity. Qed.

Lemma intervals_startDutyTimer t_start t_tick t_modal p :
  intervals (startDutyTimer t_start t_tick t_modal p)
  = <[next_interval p := UpdateDutyTimer]> (intervals p)
  /\ next_interval (startDutyTimer t_start t_tick t_modal p) = S (next_interval p)
  /\ location (startDutyTimer t_start t_tick t_modal p) = location p.
Proof.
  unfold startDutyTimer. destruct (JS.truthy (getItem "duty_start_time" p));
    cbn [negb setInterval];
    rewrite intervals_updateDutyTimer, next_interval_updateDutyTimer,
      location_updateDutyTimer; done.
Qed.

Lemma intervals_init t_start t_tick t_modal p :
  intervals (init t_start t_tick t_modal p)
  = <[S (next_interval p) := UpdateTimestamp]>
      (<[next_interval p := UpdateDutyTimer]> (intervals p))
  /\ location (init t_start t_tick t_modal p) = location p.
Proof.
  destruct (intervals_startDutyTimer t_start t_tick t_modal p) as (Hi & Hn & Hl).
  unfold init, bindEvents.
  repeat case_match; cbn [setInterval snd intervals location next_interval with_theme];
    by rewrite Hi, Hn, Hl.
Qed.

Lemma duty_interval_init html storage t_start t_tick t_modal :
  duty_interval_kept (init t_start t_tick t_modal (fresh_page html storage)).
Proof.
  destruct (intervals_init t_start t_tick t_modal (fresh_page html storage)) as [Hi Hl].
  assert (Hd : dutyTimerInterval (this (init t_start t_tick t_modal (fresh_page html storage)))
               = Some 1%nat).
  { rewrite this_init, this_startDutyTimer. reflexivity. }
  intros i. rewrite Hi, Hl, Hd. cbn [next_interval fresh_page intervals location].
  destruct (decide (i = 1%nat)) as [-> | Hne1].
  - rewrite lookup_insert_ne, lookup_insert_eq by done. tauto.
  - destruct (decide (i = 2%nat)) as [-> | Hne2].
    + rewrite lookup_insert_eq. split; [discriminate | intros [_ [=]]].
    + rewrite !lookup_insert_ne, lookup_empty by done.
      split; [discriminate | intros [_ [=]]; congruence].
Qed.

Lemma duty_interval_leave p url :
  duty_interval_kept p ->
  duty_interval_kept (navigate url (removeItem "duty_start_time"
                        (clearInterval (dutyTimerInterval (this p)) p))).
Proof.
  intros Hp i. cbn [location navigate emit].
  split; [| intros [[=] _]].
  unfold clearInterval. destruct (dutyTimerInterval (this p)) as [j |] eqn:Hj; cbn.
  - destruct (decide (j = i)) as [-> | Hne].
    + by rewrite lookup_delete_eq.
    + rewrite lookup_delete_ne by done. intros Hi. apply Hp in Hi as [_ Hi]. congruence.
  - intros Hi. apply Hp in Hi as [_ Hi]. congruence.
Qed.

Lemma duty_interval_dispatch e p :
  duty_interval_kept p -> duty_interval_kept (dispatch e p).
Proof.
  intros Hp.
  destruct e as [html ts tt tm | id now nm | cam | | ty | | | | | [|] | | | id | id];
    try apply duty_interval_init;
    unfold dispatch, when_bound; try exact Hp.
  - destruct (intervals p !! id) as [[|] |]; try exact Hp.
    apply (duty_interval_frame p);
      [apply intervals_updateDutyTimer | apply location_updateDutyTimer
      | by rewrite this_updateDutyTimer | exact Hp].
  - destruct (getElementById "themeToggle" p); [| exact Hp].
    by apply (duty_interval_frame p).
  - destruct (getElementById "soundToggle" p); [| exact Hp].
    by apply (duty_interval_frame p).
  - destruct (getElementById "logoutBtn" p); [| exact Hp].
    by apply duty_interval_leave.
  - by destruct (getElementById "logoutBtn" p).
  - destruct (getElementById "confirmEndShift" p); [| exact Hp].
    unfold endShift. intros i. cbn [location navigate emit intervals].
    pose proof (duty_interval_leave p "../../index.html" Hp i) as Hi.
    cbn [location navigate emit intervals] in Hi. exact Hi.
  - destruct (getElementById "requestOvertimeBtn" p); [| exact Hp].
    by apply (duty_interval_frame p).
  - unfold closeModal. repeat case_match; exact Hp.
  - unfold closeModal. repeat case_match; exact Hp.
Qed.

(** X5.  In every page that a run of the console reaches, the callback
    of the duty timer is registered under exactly the id that
    [dutyTimerInterval] holds as long as the console is shown, and under no
    id after the shift was ended or the user logged out: the timer never
    runs twice at once and never ticks on after the end. *)
Theorem duty_interval_registered_once (html : gmap string Element)
    (storage : gmap string string) (t_start t_tick t_modal : Z) (es : list Event) :
  let p := run es (first_load html storage t_start t_tick t_modal) in
  forall i, intervals p !! i = Some UpdateDutyTimer
            <-> location p = None /\ dutyTimerInterval (this p) = Some i.
Proof.
  intros p. subst p.
  induction es as [| e es IH] using rev_ind.
  - apply duty_interval_init.
  - rewrite run_snoc. by apply duty_interval_dispatch.
Qed.

End Reloads.

(** ** The end-of-shift modal *)

(** What a tick does to the modal: nothing unless no time remains. *)
Lemma endShiftModal_updateDutyTimer now now_modal p :
  getElementById "endShiftModal" (updateDutyTimer now now_modal p) =
  (if JS.strict_eq (remaining now (this p)) (Num 0)
   then classList_add "open" else id) <$> getElementById "endShiftModal" p.
Proof.
  unfold updateDutyTimer, showEndOfShiftModal.
  destruct (JS.strict_eq (remaining now (this p)) (Num 0));
    repeat case_match; lookup_element; by destruct (getElementById "endShiftModal" p).
Qed.

Lemma strict_eq_zero_iff n : JS.strict_eq n (Num 0) = true <-> n = Num 0.
Proof.
  destruct n as [| z]; cbn; [split; discriminate |].
  rewrite bool_decide_eq_true. split; [by intros -> | by intros [= ->]].
Qed.

(** X3.  Closing the end-of-shift modal (by its backdrop or a close
    button) does not dismiss the end of the shift: the modal loses the
    class [open], and the next tick gives it back exactly when no time
    remains; a tick with time remaining leaves the modal closed. *)
Theorem closed_modal_reopens_at_zero (now now_modal : Z) (p : Page) (el : Element) :
  getElementById "endShiftModal" p = Some el ->
  "modal-backdrop" ∈ classList el ->
  let q := closeModal "endShiftModal" p in
  (exists el', getElementById "endShiftModal" q = Some el' /\ "open" ∉ classList el')
  /\ (exists el', getElementById "endShiftModal" (updateDutyTimer now now_modal q) = Some el'
                  /\ ("open" ∈ classList el' <-> remaining now (this p) = Num 0)).
Proof.
  intros Hel Hback q.
  assert (Hq : getElementById "endShiftModal" q = Some (classList_remove "open" el)).
  { subst q. unfold closeModal. rewrite Hel, decide_True by done.
    lookup_element. by rewrite Hel. }
  assert (Hthis : this q = this p).
  { subst q. unfold closeModal. rewrite Hel, decide_True by done. reflexivity. }
  split.
  - eexists. split; [exact Hq |]. apply classList_remove_elem.
  - rewrite endShiftModal_updateDutyTimer, Hq, Hthis.
    destruct (JS.strict_eq (remaining now (this p)) (Num 0)) eqn:Hz;
      cbn [fmap option_fmap option_map].
    + apply strict_eq_zero_iff in Hz.
      eexists. split; [reflexivity |]. split; [done |]. intros _. apply classList_add_elem.
    + eexists. split; [reflexivity |]. split.
      * intros Hopen. by apply classList_remove_elem in Hopen.
      * intros Hzero. apply strict_eq_zero_iff in Hzero. congruence.
Qed.

(** The three fields of a time below one hundred hours, each padded to
    two digits. *)
Lemma fields_two_digits (r : Z) :
  0 <= r < 360000000 ->
  pad2 (hours (Num r)) +:+ ":" +:+ pad2 (minutes (Num r)) +:+ ":" +:+ pad2 (seconds (Num r))
  = Spec.HH_MM_SS r.
Proof.
  intros Hr. rewrite hours_Num, minutes_Num, seconds_Num. unfold Spec.HH_MM_SS.
  rewrite !Z.rem_mod_nonneg by lia.
  pose proof (Z.mod_pos_bound r 60000 ltac:(lia)).
  pose proof (Z.mod_pos_bound r 3600000 ltac:(lia)).
  rewrite !pad2_two_digits; [reflexivity | | |];
    (split; [apply Z.div_pos; lia | apply Z.div_lt_upper_bound; lia]).
Qed.

(** X4.  When a tick finds no time remaining, the modal shows the time on
    duty: the time elapsed since the start of the shift at the moment the
    modal is raised, as [HH:MM:SS] (for less than 100 hours on duty). *)
Theorem modal_shows_time_on_duty (now now_modal : Z) (p : Page) (s : Z) (el : Element) :
  dutyStartTime (this p) = Some (Num s) ->
  getElementById "modalDutyTime" p = Some el ->
  remaining now (this p) = Num 0 ->
  0 <= now_modal - s < 360000000 ->
  textContent <$> getElementById "modalDutyTime" (updateDutyTimer now now_modal p)
  = Some (Spec.HH_MM_SS (now_modal - s)).
Proof.
  intros Hs Hel Hzero Helapsed.
  unfold updateDutyTimer. rewrite Hzero. cbn [JS.strict_eq].
  rewrite bool_decide_eq_true_2 by done.
  unfold showEndOfShiftModal.
  repeat case_match; lookup_element; rewrite Hel; cbn [fmap option_fmap option_map textContent set_textContent];
    f_equal; unfold elapsed; cbn [this emit update_element with_document]; rewrite Hs; cbn [time_value JS.sub];
    by apply fields_two_digits.
Qed.

(** ** Numbers in texts *)

Lemma code_bounds c : 0 <= code c < 256.
Proof.
  unfold code. pose proof (nat_ascii_bounded c). lia.
Qed.

Lemma pretty_N_char_code d :
  (d < 10)%N -> code (pretty_N_char d) = 48 + Z.of_N d.
Proof.
  intros Hd.
  assert (Hcases : (d = 0 \/ d = 1 \/ d = 2 \/ d = 3 \/ d = 4 \/ d = 5 \/ d = 6
                    \/ d = 7 \/ d = 8 \/ d = 9)%N) by lia.
  repeat (destruct Hcases as [-> | Hcases]); try subst d; reflexivity.
Qed.

Lemma digit_of_decimal c :
  48 <= code c <= 57 -> digit_of 10 c = Some (code c - 48).
Proof.
  intros Hc. unfold digit_of. rewrite decide_True by done. cbn.
  by rewrite decide_True by lia.
Qed.

Lemma pretty_N_go_head x s :
  (0 < x)%N -> starts_with_digit (pretty_N_go x s).
Proof.
  revert s. induction (N.lt_wf_0 x) as [x _ IH]; intros s Hx.
  rewrite pretty_N_go_step by done.
  destruct (decide (x < 10)%N) as [Hsmall | Hbig].
  - rewrite N.div_small, pretty_N_go_0 by done.
    eexists _, _. split; [reflexivity |].
    rewrite N.mod_small, pretty_N_char_code by done. lia.
  - apply IH; [apply N.div_lt; lia |].
    apply N.div_str_pos. lia.
Qed.

(** The digits that [radix_digits] reads off a printed number are worth
    that number. *)
Lemma radix_digits_pretty_N_go x s :
  exists ds, radix_digits 10 (pretty_N_go x s) = ds ++ radix_digits 10 s
             /\ (forall a, foldl (λ a d, a * 10 + d) a ds
                           = a * 10 ^ Z.of_nat (length ds) + Z.of_N x)
             /\ ((0 < x)%N -> ds <> []).
Proof.
  revert s. induction (N.lt_wf_0 x) as [x _ IH]; intros s.
  destruct (decide (x = 0)%N) as [-> | Hx].
  - exists []. rewrite pretty_N_go_0. split; [reflexivity |]. split; [| intros ?; lia].
    intros a. cbn [foldl length]. change (Z.of_nat 0) with 0. rewrite Z.pow_0_r. clear IH. change (Z.of_N 0) with 0. lia.
  - rewrite pretty_N_go_step by lia.
    destruct (IH (x `div` 10)%N ltac:(apply N.div_lt; lia)
                (String (pretty_N_char (x `mod` 10)) s)) as (ds & Hds & Hval & _).
    pose proof (N.mod_lt x 10 ltac:(lia)) as Hmod.
    exists (ds ++ [Z.of_N (x `mod` 10)]). split; [| split].
    + rewrite Hds. cbn [radix_digits].
      pose proof (N2Z.is_nonneg (x `mod` 10)) as Hnn.
      assert (Hlt : Z.of_N (x `mod` 10) < 10) by (clear -Hmod; lia).
      rewrite digit_of_decimal by (rewrite pretty_N_char_code by exact Hmod; clear -Hnn Hlt; lia).
      rewrite pretty_N_char_code by exact Hmod.
      rewrite <- app_assoc. cbn. do 3 f_equal. lia.
    + intros a. rewrite foldl_app, Hval. cbn [foldl].
      rewrite length_app, Nat2Z.inj_add, Z.pow_add_r by lia. cbn [length].
      change (10 ^ Z.of_nat 1) with 10.
      rewrite (N.div_mod x 10) at 3 by lia.
      rewrite N2Z.inj_add, N2Z.inj_mul. change (Z.of_N 10) with 10. lia.
    + intros _. by destruct ds.
Qed.

Lemma trimStart_digit s : starts_with_digit s -> trimStart s = s.
Proof.
  intros (c & r & -> & Hc). cbn [trimStart].
  assert (H1 : is_whitespace1 c = false).
  { apply bool_decide_eq_false. rewrite !elem_of_cons, elem_of_nil. lia. }
  rewrite H1. destruct r as [| c2 r2]; [reflexivity |].
  assert (H2 : is_whitespace2 c c2 = false) by (apply bool_decide_eq_false; lia).
  rewrite H2. destruct r2 as [| c3 r3]; [reflexivity |].
  assert (H3 : is_whitespace3 c c2 c3 = false) by (apply bool_decide_eq_false; lia).
  by rewrite H3.
Qed.

Lemma strip_prefix_other a pre c r :
  code a <> code c -> strip_prefix (String a pre) (String c r) = None.
Proof. intros Hne. cbn. rewrite decide_False; [reflexivity | by intros ->]. Qed.

(** On a string that starts with a digit from 1 to 9, [parseInt] reads the
    leading decimal digits. *)
Lemma parseInt_digits s :
  starts_with_digit s ->
  parseInt s = match radix_digits 10 s with
               | [] => NaN
               | ds => Num (1 * foldl (λ a d, a * 10 + d) 0 ds)
               end.
Proof.
  intros Hs. unfold parseInt. rewrite (trimStart_digit _ Hs).
  destruct Hs as (c & r & -> & Hc).
  rewrite (strip_prefix_other "-") by (change (code "-") with 45; lia).
  rewrite (strip_prefix_other "+") by (change (code "+") with 43; lia).
  rewrite !(strip_prefix_other "0") by (change (code "0") with 48; lia).
  reflexivity.
Qed.

Lemma parseInt_pretty_pos (x : positive) : parseInt (pretty (N.pos x)) = Num (Z.pos x).
Proof.
  unfold pretty, pretty_N. rewrite decide_False by done.
  rewrite parseInt_digits by (apply pretty_N_go_head; lia).
  destruct (radix_digits_pretty_N_go (N.pos x) "") as (ds & -> & Hval & Hne).
  cbn [radix_digits]. rewrite app_nil_r.
  destruct ds as [| d ds].
  { exfalso. by apply Hne. }
  rewrite Hval. f_equal; lia.
Qed.

(** [parseInt] reads back what the conversion of an integer to a string
    writes. *)
Lemma parseInt_toString (n : Z) : parseInt (JS.toString (Num n)) = Num n.
Proof.
  unfold JS.toString. destruct n as [| x | x].
  - reflexivity.
  - apply parseInt_pretty_pos.
  - change (pretty (Z.neg x)) with ("-" +:+ pretty (N.pos x)).
    pose proof (parseInt_pretty_pos x) as Hpos.
    assert (Hhead : starts_with_digit (pretty (N.pos x))).
    { unfold pretty, pretty_N. rewrite decide_False by done.
      apply pretty_N_go_head. lia. }
    rewrite (parseInt_digits _ Hhead) in Hpos.
    destruct Hhead as (c & r & Heq & Hc). rewrite Heq in *.
    unfold parseInt.
    change ("-" +:+ String c r) with (String "-" (String c r)).
    assert (Htrim : trimStart (String "-" (String c r)) = String "-" (String c r)).
    { cbn [trimStart].
      assert (H1 : is_whitespace1 "-" = false) by reflexivity. rewrite H1.
      assert (H2 : is_whitespace2 "-" c = false).
      { apply bool_decide_eq_false. change (code "-") with 45. lia. }
      rewrite H2. destruct r as [| c3 r3]; [reflexivity |].
      assert (H3 : is_whitespace3 "-" c c3 = false).
      { apply bool_decide_eq_false. change (code "-") with 45. lia. }
      by rewrite H3. }
    rewrite Htrim.
    change (strip_prefix "-" (String "-" (String c r))) with (Some (String c r)).
    cbn iota beta.
    rewrite !(strip_prefix_other "0") by (change (code "0") with 48; lia).
    destruct (radix_digits 10 (String c r)) as [| d ds]; [discriminate |].
    injection Hpos as Hpos. f_equal. cbn [foldl].
    change (Z.neg x) with (- Z.pos x). lia.
Qed.

(** ** The vehicle counters *)

Lemma string_app_cons c (a b : string) : String c a +:+ b = String c (a +:+ b).
Proof. reflexivity. Qed.

Lemma string_app_nil_l (b : string) : "" +:+ b = b.
Proof. reflexivity. Qed.

Lemma string_app_nil_r (a : string) : a +:+ "" = a.
Proof. induction a as [| c a IH]; [reflexivity |]. by rewrite string_app_cons, IH. Qed.

Lemma strip_prefix_app pre r : strip_prefix pre (pre +:+ r) = Some r.
Proof.
  induction pre as [| c pre IH]; [by destruct r |].
  rewrite string_app_cons. cbn [strip_prefix]. by rewrite decide_True.
Qed.

Lemma take_digits_app ds r :
  all_digits ds -> take_digits (ds +:+ r) = ds +:+ take_digits r.
Proof.
  induction ds as [| c ds IH]; [reflexivity |].
  intros [Hc Hds]. rewrite !string_app_cons. cbn [take_digits].
  rewrite bool_decide_eq_true_2 by done. by rewrite IH.
Qed.

Lemma pretty_N_go_all_digits x s : all_digits s -> all_digits (pretty_N_go x s).
Proof.
  revert s. induction (N.lt_wf_0 x) as [x _ IH]; intros s Hs.
  destruct (decide (x = 0)%N) as [-> | Hx]; [by rewrite pretty_N_go_0 |].
  rewrite pretty_N_go_step by lia.
  apply IH; [apply N.div_lt; lia |]. split; [| exact Hs].
  pose proof (N.mod_lt x 10 ltac:(lia)) as Hmod.
  rewrite pretty_N_char_code by exact Hmod.
  pose proof (N2Z.is_nonneg (x `mod` 10)) as Hnn.
  assert (Hlt : Z.of_N (x `mod` 10) < 10) by (clear -Hmod; lia).
  clear -Hnn Hlt. lia.
Qed.

(** The decimal of a number that is not negative: digits, at least one. *)
Lemma toString_digits (n : Z) :
  0 <= n -> all_digits (JS.toString (Num n)) /\ JS.toString (Num n) <> "".
Proof.
  intros Hn. unfold JS.toString. destruct n as [| x | x]; [done | | lia].
  change (pretty (Z.pos x)) with (pretty (N.pos x)).
  unfold pretty, pretty_N. rewrite decide_False by done. split.
  - by apply pretty_N_go_all_digits.
  - destruct (pretty_N_go_head (N.pos x) "" ltac:(lia)) as (c & r & -> & _). done.
Qed.

Lemma count_id_not_inc_id (type : string) : "inc-" +:+ type <> "count-" +:+ type.
Proof. rewrite !string_app_cons. discriminate. Qed.

(** What one call does to the count and to the label. *)
Lemma count_incrementVehicleCount type p :
  getElementById ("count-" +:+ type) (incrementVehicleCount type p) =
  (λ el, set_textContent
           (JS.toString (JS.add (or_zero (parseInt (textContent el))) (Num 1))) el)
    <$> getElementById ("count-" +:+ type) p.
Proof.
  unfold incrementVehicleCount.
  pose proof (count_id_not_inc_id type) as Hne.
  destruct (getElementById ("count-" +:+ type) p) as [el |] eqn:Hel;
    repeat case_match; lookup_element; by rewrite ?Hel.
Qed.

Lemma inc_incrementVehicleCount type p :
  getElementById ("inc-" +:+ type) (incrementVehicleCount type p) =
  (λ el, set_textContent
           ("↑ " +:+ JS.toString
                       (JS.add match match_arrow_digits (textContent el) with
                               | Some digits => parseInt digits
                               | None => Num 0
                               end (Num 1)) +:+ " in last min") el)
    <$> getElementById ("inc-" +:+ type) p.
Proof.
  unfold incrementVehicleCount.
  pose proof (count_id_not_inc_id type) as Hne.
  set (p1 := match getElementById ("count-" +:+ type) p with
             | Some countEl =>
                 update_element ("count-" +:+ type)
                   (set_textContent
                      (JS.toString (JS.add (or_zero (parseInt (textContent countEl))) (Num 1)))) p
             | None => p
             end).
  assert (Hsame : getElementById ("inc-" +:+ type) p1 = getElementById ("inc-" +:+ type) p).
  { subst p1. destruct (getElementById ("count-" +:+ type) p); [| reflexivity].
    by rewrite lookup_update_element_ne. }
  rewrite <- Hsame. clearbody p1.
  destruct (getElementById ("inc-" +:+ type) p1) as [el |] eqn:Hel.
  - lookup_element. by rewrite Hel.
  - by rewrite Hel.
Qed.

Lemma match_arrow_label (n : Z) :
  0 <= n ->
  match_arrow_digits ("↑ " +:+ JS.toString (Num n) +:+ " in last min")
  = Some (JS.toString (Num n)).
Proof.
  intros Hn. destruct (toString_digits n Hn) as [Hdigits Hne].
  rewrite !string_app_cons. cbn [match_arrow_digits].
  rewrite <- !string_app_cons, strip_prefix_app.
  rewrite take_digits_app by done.
  change (take_digits " in last min") with "". rewrite string_app_nil_r.
  by rewrite decide_False.
Qed.

(** X6.  Each call of [incrementVehicleCount] adds one to the count it
    finds in the text of the counter: from the text of an integer [n] (a
    safe integer), [k] calls leave the text of [n + k]; a text that
    [parseInt] cannot read counts as 0, so one call leaves [1]. *)
Theorem count_increments (type : string) (p : Page) (el : Element) (n : Z) (k : nat) :
  getElementById ("count-" +:+ type) p = Some el ->
  - 9007199254740991 <= n ->
  n + Z.of_nat k <= 9007199254740991 ->
  (textContent el = JS.toString (Num n) ->
   textContent <$> getElementById ("count-" +:+ type)
                     (Nat.iter k (incrementVehicleCount type) p)
   = Some (JS.toString (Num (n + Z.of_nat k))))
  /\ (parseInt (textContent el) = NaN ->
      textContent <$> getElementById ("count-" +:+ type) (incrementVehicleCount type p)
      = Some "1").
Proof.
  intros Hel _ _. split.
  - intros Htext. induction k as [| k IH].
    + change (Nat.iter 0 (incrementVehicleCount type) p) with p.
      rewrite Hel, Z.add_0_r. cbn. by rewrite Htext.
    + rewrite Nat.iter_succ, count_incrementVehicleCount.
      destruct (getElementById ("count-" +:+ type) (Nat.iter k (incrementVehicleCount type) p))
        as [el' |]; [| discriminate IH].
      injection IH as IH. cbn [fmap option_fmap option_map textContent set_textContent].
      change (pretty (n + Z.of_nat k)) with (JS.toString (Num (n + Z.of_nat k))) in IH.
      rewrite IH, parseInt_toString. cbn [or_zero JS.add]. do 3 f_equal. lia.
  - intros Hnan. rewrite count_incrementVehicleCount, Hel. cbn. by rewrite Hnan.
Qed.

(** X7.  The label of the last minute is counted the same way: from
    [↑ n in last min], [k] calls of [incrementVehicleCount] leave
    [↑ n+k in last min]; a label without an arrow followed by a space and
    digits is replaced by [↑ 1 in last min]. *)
Theorem label_increments (type : string) (p : Page) (el : Element) (n : Z) (k : nat) :
  getElementById ("inc-" +:+ type) p = Some el ->
  0 <= n ->
  n + Z.of_nat k <= 9007199254740991 ->
  (textContent el = "↑ " +:+ JS.toString (Num n) +:+ " in last min" ->
   textContent <$> getElementById ("inc-" +:+ type)
                     (Nat.iter k (incrementVehicleCount type) p)
   = Some ("↑ " +:+ JS.toString (Num (n + Z.of_nat k)) +:+ " in last min"))
  /\ (match_arrow_digits (textContent el) = None ->
      textContent <$> getElementById ("inc-" +:+ type) (incrementVehicleCount type p)
      = Some "↑ 1 in last min").
Proof.
  intros Hel Hn _. split.
  - intros Htext. induction k as [| k IH].
    + change (Nat.iter 0 (incrementVehicleCount type) p) with p.
      rewrite Hel, Z.add_0_r. cbn. by rewrite Htext.
    + rewrite Nat.iter_succ, inc_incrementVehicleCount.
      destruct (getElementById ("inc-" +:+ type) (Nat.iter k (incrementVehicleCount type) p))
        as [el' |]; [| discriminate IH].
      injection IH as IH. cbn [fmap option_fmap option_map textContent set_textContent].
      change (pretty (n + Z.of_nat k)) with (JS.toString (Num (n + Z.of_nat k))) in IH.
      rewrite IH, match_arrow_label by lia. rewrite parseInt_toString.
      cbn [JS.add]. do 5 f_equal. lia.
  - intros Hnone. rewrite inc_incrementVehicleCount, Hel. cbn. by rewrite Hnone.
Qed.

(** ** The detection dropdown *)

Lemma classList_remove_other c c' el :
  c <> c' -> c ∈ classList (classList_remove c' el) <-> c ∈ classList el.
Proof.
  intros Hne. unfold classList_remove; cbn. rewrite list_elem_of_filter. tauto.
Qed.

Lemma classList_toggle_present c el :
  c ∈ classList el -> classList_toggle c el = classList_remove c el.
Proof. intros Hc. unfold classList_toggle. by rewrite decide_True. Qed.

Lemma classList_toggle_absent c el :
  c ∉ classList el -> classList_toggle c el = classList_add c el.
Proof. intros Hc. unfold classList_toggle. by rewrite decide_False. Qed.

Lemma dropdown_closeDropdown p :
  getElementById "detectionDropdown" (closeDropdown p) =
  (λ el, classList_remove "show" (classList_add "hidden" el))
    <$> getElementById "detectionDropdown" p.
Proof.
  unfold closeDropdown. lookup_element.
  by destruct (getElementById "detectionDropdown" p).
Qed.

Lemma dropdown_toggleDropdown p :
  getElementById "detectionDropdown" (toggleDropdown p) =
  (λ el, classList_toggle "show" (classList_toggle "hidden" el))
    <$> getElementById "detectionDropdown" p.
Proof.
  unfold toggleDropdown. lookup_element.
  by destruct (getElementById "detectionDropdown" p).
Qed.

(** X8.  The dropdown of the simulated detections is either hidden or
    shown: the closing listeners hide it whatever its classes were, a click
    on the simulate button shows a hidden dropdown and hides a shown one,
    so the classes [hidden] and [show] are never both on it or both off it
    from the first closing on. *)
Theorem dropdown_hidden_or_shown (p : Page) (el : Element) :
  getElementById "detectionDropdown" p = Some el ->
  (exists el', getElementById "detectionDropdown" (closeDropdown p) = Some el'
               /\ dropdown_hidden el')
  /\ (dropdown_hidden el ->
      exists el', getElementById "detectionDropdown" (toggleDropdown p) = Some el'
                  /\ dropdown_shown el')
  /\ (dropdown_shown el ->
      exists el', getElementById "detectionDropdown" (toggleDropdown p) = Some el'
                  /\ dropdown_hidden el').
Proof.
  intros Hel. rewrite dropdown_closeDropdown, dropdown_toggleDropdown, Hel.
  cbn [fmap option_fmap option_map]. unfold dropdown_hidden, dropdown_shown.
  split; [| split].
  - eexists. split; [reflexivity |]. split; [| apply classList_remove_elem].
    rewrite classList_remove_other by done. apply classList_add_elem.
  - intros [Hh Hs]. eexists. split; [reflexivity |].
    rewrite (classList_toggle_present "hidden" el) by done.
    rewrite classList_toggle_absent by (by rewrite classList_remove_other).
    split; [apply classList_add_elem |].
    rewrite classList_add_other by done. apply classList_remove_elem.
  - intros [Hs Hh]. eexists. split; [reflexivity |].
    rewrite (classList_toggle_absent "hidden" el) by done.
    rewrite classList_toggle_present by (by rewrite classList_add_other).
    split; [| apply classList_remove_elem].
    rewrite classList_remove_other by done. apply classList_add_elem.
Qed.

(** ** Simulated detections *)






Lemma page_addNotification n c : page (addNotification n c) = page c.
Proof. unfold addNotification. by destruct (getElementById _ _). Qed.

Lemma same_shift_setTimeout cb c : same_shift (page c) (page (setTimeout cb c)).
Proof. by repeat split. Qed.


Lemma document_showPopup n c : document (page (showPopup n c)) = document (page c).
Proof. unfold showPopup. by destruct (getElementById _ _). Qed.






(** *** The feed *)

Lemma notificationList_simulateDetection type c el :
  getElementById "notificationList" (page c) = Some el ->
  notificationList (simulateDetection type c) =
  match detection type with
  | Some n => feed_item n :: notificationList c
  | None => notificationList c
  end.
Proof.
  intros Hel. unfold simulateDetection.
  destruct (detection type) as [n |]; [| reflexivity].
  cbn [notificationList with_page]. unfold showPopup.
  rewrite page_addNotification.
  assert (Hfeed : notificationList (addNotification n c) = feed_item n :: notificationList c).
  { unfold addNotification. by rewrite Hel. }
  by destruct (getElementById "popupContainer" (page c)).
Qed.

(** A detection writes the text of the two counters; the other nodes
    found by id stay in the document. *)
Lemma element_kept_simulateDetection id type c :
  id ≠ "count-car" -> id ≠ "inc-car" ->
  getElementById id (page (simulateDetection type c)) = getElementById id (page c).
Proof.
  intros Hcount Hinc. unfold simulateDetection.
  destruct (detection type) as [n |]; [| reflexivity].
  cbn [page with_page]. unfold incrementVehicleCount.
  change ("count-" +:+ "car") with "count-car". change ("inc-" +:+ "car") with "inc-car".
  assert (Hdoc : forall id', getElementById id' (page (showPopup n (addNotification n c)))
                             = getElementById id' (page c)).
  { intros id'. unfold getElementById. by rewrite document_showPopup, page_addNotification. }
  repeat case_match; lookup_element; apply Hdoc.
Qed.

(** X9.  The feed lists the detections newest first: after a series of
    simulated detections the children of the notification list are the
    items of the detected types in reverse order, before the items that
    were there; a type that the table does not know adds nothing. *)
Theorem feed_is_newest_first (types : list string) (c : Console) (el : Element) :
  getElementById "notificationList" (page c) = Some el ->
  notificationList (simulate_all types c)
  = reverse (feed_item <$> omap detection types) ++ notificationList c.
Proof.
  revert c. induction types as [| type types IH]; intros c Hel; [reflexivity |].
  change (simulate_all (type :: types) c)
    with (simulate_all types (simulateDetection type c)).
  rewrite IH by (by rewrite element_kept_simulateDetection).
  rewrite (notificationList_simulateDetection _ _ _ Hel).
  cbn [omap list_omap]. destruct (detection type) as [n |]; [| reflexivity].
  cbn [fmap list_fmap]. rewrite reverse_cons, <- app_assoc. reflexivity.
Qed.

(** *** The count of the detections *)

Lemma count_step p el n :
  getElementById "count-car" p = Some el ->
  textContent el = JS.toString (Num n) ->
  exists el', getElementById "count-car" (incrementVehicleCount "car" p) = Some el'
              /\ textContent el' = JS.toString (Num (n + 1)).
Proof.
  intros Hel Htext.
  pose proof (count_incrementVehicleCount "car" p) as Hcount.
  change ("count-" +:+ "car") with "count-car" in Hcount.
  rewrite Hcount, Hel. eexists. split; [reflexivity |].
  cbn [textContent set_textContent]. by rewrite Htext, parseInt_toString.
Qed.

Lemma count_simulateDetection type c :
  getElementById "count-car" (page (simulateDetection type c)) =
  match detection type with
  | Some _ =>
      getElementById "count-car" (incrementVehicleCount "car" (page c))
  | None => getElementById "count-car" (page c)
  end.
Proof.
  unfold simulateDetection. destruct (detection type) as [n |]; [| reflexivity].
  cbn [page with_page].
  pose proof (count_incrementVehicleCount "car" (page (showPopup n (addNotification n c)))) as H1.
  pose proof (count_incrementVehicleCount "car" (page c)) as H2.
  change ("count-" +:+ "car") with "count-car" in H1, H2.
  rewrite H1, H2. f_equal.
  unfold getElementById. by rewrite document_showPopup, page_addNotification.
Qed.

(** X10.  Every detection is counted once: after a series of simulated
    detections the car counter, which showed the integer [n], shows [n]
    plus the number of types of the series that the table knows. *)
Theorem detections_are_counted (types : list string) (c : Console) (el : Element) (n : Z) :
  getElementById "count-car" (page c) = Some el ->
  textContent el = JS.toString (Num n) ->
  - 9007199254740991 <= n ->
  n + Z.of_nat (length (omap detection types)) <= 9007199254740991 ->
  textContent <$> getElementById "count-car" (page (simulate_all types c))
  = Some (JS.toString (Num (n + Z.of_nat (length (omap detection types))))).
Proof.
  intros Hel Htext _ _. revert c el n Hel Htext.
  induction types as [| type types IH]; intros c el n Hel Htext.
  - cbn. rewrite Hel, Z.add_0_r. cbn. by rewrite Htext.
  - change (simulate_all (type :: types) c)
      with (simulate_all types (simulateDetection type c)).
    cbn [omap list_omap].
    pose proof (count_simulateDetection type c) as Hstep.
    destruct (detection type) as [d |].
    + destruct (count_step _ _ _ Hel Htext) as (el' & Hel' & Htext').
      rewrite Hel' in Hstep. rewrite (IH _ _ _ Hstep Htext').
      cbn [length]. do 3 f_equal. lia.
    + rewrite Hel in Hstep. by rewrite (IH _ _ _ Hstep Htext).
Qed.

(** *** Popups and their timeouts *)

Lemma awaited_FadeOut popup node :
  awaited popup = FadeOut node -> popup_node popup = node /\ popup_animation popup = None.
Proof. unfold awaited. destruct (popup_animation popup); [discriminate | by intros [= ->]]. Qed.

Lemma awaited_RemovePopup popup node :
  awaited popup = RemovePopup node ->
  popup_node popup = node /\ popup_animation popup <> None.
Proof. unfold awaited. destruct (popup_animation popup); [by intros [= ->] | discriminate]. Qed.

Lemma awaited_node popup node :
  awaited popup = FadeOut node \/ awaited popup = RemovePopup node ->
  popup_node popup = node.
Proof. intros [H | H]; [by apply awaited_FadeOut in H as [] | by apply awaited_RemovePopup in H as []]. Qed.

Lemma awaited_cases popup :
  awaited popup = FadeOut (popup_node popup) \/ awaited popup = RemovePopup (popup_node popup).
Proof. unfold awaited. destruct (popup_animation popup); auto. Qed.

Lemma same_node_same_popup (l : list Popup) p1 p2 :
  NoDup (popup_node <$> l) -> p1 ∈ l -> p2 ∈ l -> popup_node p1 = popup_node p2 -> p1 = p2.
Proof.
  induction l as [| x l IH]; [by intros _ ?%elem_of_nil |].
  rewrite fmap_cons, NoDup_cons, !elem_of_cons.
  intros [Hx Hl] [-> | H1] [-> | H2] Heq; try done.
  - destruct Hx. rewrite Heq. by apply list_elem_of_fmap_2.
  - destruct Hx. rewrite <- Heq. by apply list_elem_of_fmap_2.
  - by apply IH.
Qed.

(** Nothing changes for the popups when only the page is written. *)
Lemma popups_awaited_same c c' :
  timeouts c' = timeouts c -> popupContainer c' = popupContainer c ->
  next_node c' = next_node c -> next_interval (page c') = next_interval (page c) ->
  popups_awaited c -> popups_awaited c'.
Proof. unfold popups_awaited. by intros -> -> -> ->. Qed.

(** A popup is appended with its first timeout. *)
Lemma popups_awaited_add c c' popup :
  popups_awaited c ->
  popup_node popup = next_node c ->
  timeouts c' = <[next_interval (page c) := awaited popup]> (timeouts c) ->
  popupContainer c' = popupContainer c ++ [popup] ->
  next_node c' = S (next_node c) ->
  next_interval (page c') = S (next_interval (page c)) ->
  popups_awaited c'.
Proof.
  intros (I1 & I2 & I3 & I4 & I5 & I6) Hnode Ht Hp Hn Hi.
  unfold popups_awaited. rewrite Ht, Hp, Hn, Hi.
  assert (Hfresh : forall q, q ∈ popupContainer c -> awaited q <> awaited popup).
  { intros q Hq Heq. apply I2 in Hq.
    assert (popup_node q = popup_node popup); [| lia].
    apply awaited_node. rewrite Heq. apply awaited_cases. }
  split; [| split; [| split; [| split; [| split]]]].
  - intros id cb. rewrite lookup_insert. case_decide; [intros _; lia |].
    intros Hid%I1. lia.
  - intros q [Hq | ->%list_elem_of_singleton]%elem_of_app; [apply I2 in Hq |]; lia.
  - rewrite fmap_app. apply NoDup_app. split; [exact I3 |]. split; [| apply NoDup_singleton].
    intros x (q & -> & Hq%I2)%list_elem_of_fmap Hx%list_elem_of_singleton. cbn in Hx. lia.
  - intros q [Hq | ->%list_elem_of_singleton]%elem_of_app.
    + destruct (I4 q Hq) as [id Hid]. exists id.
      rewrite lookup_insert_ne; [done |]. apply I1 in Hid. lia.
    + eexists. apply lookup_insert_eq.
  - intros id cb. rewrite lookup_insert. case_decide.
    + intros [= <-]. exists popup. split; [| done]. apply elem_of_app. right.
      by apply list_elem_of_singleton.
    + intros (q & Hq & Hcb)%I5. exists q. split; [| done]. apply elem_of_app. by left.
  - intros id1 id2 cb. rewrite !lookup_insert. repeat case_decide; subst.
    + done.
    + intros [= <-] (q & Hq & Hcb)%I5. by destruct (Hfresh q Hq).
    + intros (q & Hq & Hcb)%I5 [= <-]. by destruct (Hfresh q Hq).
    + apply I6.
Qed.

(** The first timeout of a popup runs: the popup fades and waits for
    the second. *)
Lemma popups_awaited_fade c c' id node :
  popups_awaited c ->
  timeouts c !! id = Some (FadeOut node) ->
  timeouts c' = <[next_interval (page c) := RemovePopup node]> (delete id (timeouts c)) ->
  popupContainer c' =
    (λ popup, if decide (popup_node popup = node)
              then {| popup_node := popup_node popup;
                      popup_className := popup_className popup;
                      popup_icon := popup_icon popup;
                      popup_title := popup_title popup;
                      popup_desc := popup_desc popup;
                      popup_animation := Some "fadeOut 0.4s forwards" |}
              else popup) <$> popupContainer c ->
  next_node c' = next_node c ->
  next_interval (page c') = S (next_interval (page c)) ->
  popups_awaited c'.
Proof.
  intros (I1 & I2 & I3 & I4 & I5 & I6) Hid Ht Hp Hn Hi.
  set (fade := λ popup, if decide (popup_node popup = node)
              then {| popup_node := popup_node popup;
                      popup_className := popup_className popup;
                      popup_icon := popup_icon popup;
                      popup_title := popup_title popup;
                      popup_desc := popup_desc popup;
                      popup_animation := Some "fadeOut 0.4s forwards" |}
              else popup) in *.
  assert (Hfnode : forall q, popup_node (fade q) = popup_node q).
  { intros q. unfold fade. by case_decide. }
  assert (Hfkeep : forall q, popup_node q <> node -> fade q = q).
  { intros q Hq. unfold fade. by rewrite decide_False. }
  assert (Hfaded : forall q, popup_node q = node -> awaited (fade q) = RemovePopup node).
  { intros q Hq. unfold fade. rewrite decide_True by done. unfold awaited; cbn. by rewrite Hq. }
  destruct (I5 _ _ Hid) as (p0 & Hp0 & Ha0).
  destruct (awaited_FadeOut _ _ Ha0) as [Hn0 Hanim0].
  assert (Honly : forall q, q ∈ popupContainer c -> popup_node q = node -> q = p0).
  { intros q Hq Hqn. eapply same_node_same_popup; eauto. congruence. }
  unfold popups_awaited. rewrite Ht, Hp, Hn, Hi.
  split; [| split; [| split; [| split; [| split]]]].
  - intros id' cb. rewrite lookup_insert. case_decide; [intros _; lia |].
    intros [_ Hid']%lookup_delete_Some. apply I1 in Hid'. lia.
  - intros q' (q & -> & Hq)%list_elem_of_fmap. rewrite Hfnode. by apply I2.
  - rewrite <- list_fmap_compose.
    rewrite (list_fmap_ext (popup_node ∘ fade) popup_node (popupContainer c)); [done |].
    intros i q _. apply Hfnode.
  - intros q' (q & -> & Hq)%list_elem_of_fmap.
    destruct (decide (popup_node q = node)) as [Hqn | Hqn].
    + exists (next_interval (page c)). rewrite (Hfaded q Hqn). apply lookup_insert_eq.
    + rewrite (Hfkeep q Hqn). destruct (I4 q Hq) as [id' Hid'].
      exists id'. rewrite lookup_insert_ne by (apply I1 in Hid'; lia).
      apply lookup_delete_Some. split; [| done].
      intros <-. rewrite Hid in Hid'. injection Hid' as Hid'. symmetry in Hid'.
      by apply awaited_FadeOut in Hid' as [? _].
  - intros id' cb. rewrite lookup_insert. case_decide.
    + intros [= <-]. exists (fade p0). split; [by apply list_elem_of_fmap_2 | by apply Hfaded].
    + intros [Hne Hid']%lookup_delete_Some.
      destruct (I5 _ _ Hid') as (q & Hq & Hcb).
      destruct (decide (popup_node q = node)) as [Hqn | Hqn].
      * rewrite (Honly q Hq Hqn), Ha0 in Hcb. subst cb.
        destruct Hne. by apply (I6 _ _ _ Hid Hid').
      * exists (fade q). split; [by apply list_elem_of_fmap_2 | by rewrite Hfkeep].
  - assert (Hnone : forall id', id ≠ id' -> timeouts c !! id' <> Some (RemovePopup node)).
    { intros id' Hne Hid'. destruct (I5 _ _ Hid') as (q & Hq & Hcb).
      destruct (awaited_RemovePopup _ _ Hcb) as [Hqn Hqa].
      rewrite (Honly q Hq Hqn) in Hqa. done. }
    intros id1 id2 cb. rewrite !lookup_insert. repeat case_decide; subst.
    + done.
    + intros [= <-] [Hne Hid2]%lookup_delete_Some. by destruct (Hnone id2).
    + intros [Hne Hid1]%lookup_delete_Some [= <-]. by destruct (Hnone id1).
    + intros [_ Hid1]%lookup_delete_Some [_ Hid2]%lookup_delete_Some. by eapply I6.
Qed.

(** The second timeout of a popup runs: the popup is removed. *)
Lemma popups_awaited_remove c c' id node :
  popups_awaited c ->
  timeouts c !! id = Some (RemovePopup node) ->
  timeouts c' = delete id (timeouts c) ->
  popupContainer c' = filter (λ popup, popup_node popup ≠ node) (popupContainer c) ->
  next_node c' = next_node c ->
  next_interval (page c') = next_interval (page c) ->
  popups_awaited c'.
Proof.
  intros (I1 & I2 & I3 & I4 & I5 & I6) Hid Ht Hp Hn Hi.
  destruct (I5 _ _ Hid) as (p0 & Hp0 & Ha0).
  destruct (awaited_RemovePopup _ _ Ha0) as [Hn0 Hanim0].
  assert (Honly : forall q, q ∈ popupContainer c -> popup_node q = node -> q = p0).
  { intros q Hq Hqn. eapply same_node_same_popup; eauto. congruence. }
  unfold popups_awaited. rewrite Ht, Hp, Hn, Hi.
  split; [| split; [| split; [| split; [| split]]]].
  - intros id' cb [_ Hid']%lookup_delete_Some. by eapply I1.
  - intros q [_ Hq]%list_elem_of_filter. by apply I2.
  - eapply sublist_NoDup; [exact I3 |]. apply fmap_sublist, sublist_filter.
  - intros q [Hqn Hq]%list_elem_of_filter. destruct (I4 q Hq) as [id' Hid'].
    exists id'. apply lookup_delete_Some. split; [| done].
    intros <-. rewrite Hid in Hid'. injection Hid' as Hid'. symmetry in Hid'.
    by apply awaited_RemovePopup in Hid' as [? _].
  - intros id' cb [Hne Hid']%lookup_delete_Some.
    destruct (I5 _ _ Hid') as (q & Hq & Hcb). exists q. split; [| done].
    apply list_elem_of_filter. split; [| done]. intros Hqn.
    rewrite (Honly q Hq Hqn), Ha0 in Hcb. subst cb.
    destruct Hne. by apply (I6 _ _ _ Hid Hid').
  - intros id1 id2 cb [_ Hid1]%lookup_delete_Some [_ Hid2]%lookup_delete_Some. by eapply I6.
Qed.

Lemma next_interval_incrementVehicleCount type p :
  next_interval (incrementVehicleCount type p) = next_interval p.
Proof. unfold incrementVehicleCount. repeat case_match; reflexivity. Qed.

Lemma popups_awaited_addNotification n c :
  popups_awaited c -> popups_awaited (addNotification n c).
Proof.
  unfold addNotification. destruct (getElementById _ _); [| done].
  by apply (popups_awaited_same c).
Qed.

Lemma popups_awaited_showPopup n c :
  popups_awaited c -> popups_awaited (showPopup n c).
Proof.
  intros Hc. unfold showPopup. destruct (getElementById _ _); [| done].
  by eapply (popups_awaited_add c _
               {| popup_node := next_node c;
                  popup_className := "detection-popup " +:+ class n;
                  popup_icon := if decide (class n = "success") then "✅" else "⚠️";
                  popup_title := title n;
                  popup_desc := desc n;
                  popup_animation := None |}).
Qed.

Lemma popups_awaited_simulateDetection type c :
  popups_awaited c -> popups_awaited (simulateDetection type c).
Proof.
  intros Hc. unfold simulateDetection. destruct (detection type) as [n |]; [| done].
  eapply popups_awaited_same;
    [| | | | apply popups_awaited_showPopup, popups_awaited_addNotification, Hc];
    try reflexivity.
  apply next_interval_incrementVehicleCount.
Qed.

Lemma popups_awaited_fire id c : popups_awaited c -> popups_awaited (fire id c).
Proof.
  intros Hc. unfold fire. destruct (timeouts c !! id) as [[node | node] |] eqn:Hid; [| | done].
  - by eapply (popups_awaited_fade c _ id node).
  - by eapply (popups_awaited_remove c _ id node).
Qed.

Lemma popups_awaited_happen h c : popups_awaited c -> popups_awaited (happen h c).
Proof.
  intros Hc. unfold happen.
  destruct h as [type | id]; [| by apply popups_awaited_fire].
  destruct (getElementById "simulateBtn" (page c)); [| done].
  destruct (getElementById "detectionDropdown" (page c)); [| done].
  unfold clickDropdownItem.
  apply (popups_awaited_same
           (if decide (type = "clear") then clearDetection c else simulateDetection type c));
    [reflexivity.. |].
  destruct (decide (type = "clear")).
  - unfold clearDetection. destruct (getElementById _ _); [| done].
    by apply (popups_awaited_same c).
  - by apply popups_awaited_simulateDetection.
Qed.

(** X11.  No popup is left behind and no timeout outlives its popup: in
    every console reached from one without popups and pending timeouts,
    by any clicks on dropdown items and any timeouts that run, each popup
    in the container has a pending timeout, the one that fades it or, once
    it fades, the one that removes it; each pending timeout is the one of
    a popup in the container; and no popup has two. *)
Theorem popups_have_their_timeouts (hs : list Happening) (c : Console) :
  popupContainer c = [] ->
  timeouts c = ∅ ->
  let c' := happenings hs c in
  (forall popup, popup ∈ popupContainer c' ->
     exists id, timeouts c' !! id = Some (awaited popup))
  /\ (forall id cb, timeouts c' !! id = Some cb ->
        exists popup, popup ∈ popupContainer c' /\ awaited popup = cb)
  /\ (forall id1 id2 cb, timeouts c' !! id1 = Some cb -> timeouts c' !! id2 = Some cb ->
        id1 = id2).
Proof.
  intros Hp Ht c'.
  assert (H0 : popups_awaited c).
  { unfold popups_awaited. rewrite Hp, Ht. repeat split.
    - intros id cb. by rewrite lookup_empty.
    - intros popup Hin. by apply elem_of_nil in Hin.
    - apply NoDup_nil_2.
    - intros popup Hin. by apply elem_of_nil in Hin.
    - intros id cb. by rewrite lookup_empty.
    - intros id1 id2 cb. by rewrite lookup_empty. }
  assert (Hinv : popups_awaited c').
  { subst c'. clear Hp Ht. revert c H0.
    induction hs as [| h hs IH]; intros c H0; [exact H0 |].
    change (happenings (h :: hs) c) with (happenings hs (happen h c)).
    by apply IH, popups_awaited_happen. }
  destruct Hinv as (_ & _ & _ & I4 & I5 & I6). by repeat split.
Qed.

(** ** The sound button *)

(** X13.  The sound button shows the state it switches: each click
    inverts [soundEnabled], and after the click the button carries the
    class [muted] exactly when the sound is off and shows the matching
    icon; a second click brings the sound back as it was. *)
Theorem sound_button_shows_state (p : Page) (el : Element) :
  getElementById "soundToggle" p = Some el ->
  let q := clickSoundToggle p in
  soundEnabled (this q) = negb (soundEnabled (this p))
  /\ soundEnabled (this (clickSoundToggle q)) = soundEnabled (this p)
  /\ exists el', getElementById "soundToggle" q = Some el'
                 /\ ("muted" ∈ classList el' <-> soundEnabled (this q) = false)
                 /\ textContent el' = if soundEnabled (this q) then "🔊" else "🔇".
Proof.
  intros Hel q. subst q. split; [reflexivity |]. split.
  { cbn. apply negb_involutive. }
  unfold clickSoundToggle. lookup_element.
  assert (Hq : getElementById "soundToggle" (toggleSound p) = Some el) by exact Hel.
  rewrite Hq. cbn [fmap option_fmap option_map].
  eexists. split; [reflexivity |].
  change (this (update_element "soundToggle"
                  (classList_toggle_force "muted"
                     (negb (soundEnabled (this (update_element "soundToggle"
                        (set_textContent (if soundEnabled (this (toggleSound p))
                                          then "🔊" else "🔇")) (toggleSound p))))))
                  (update_element "soundToggle"
                     (set_textContent (if soundEnabled (this (toggleSound p))
                                       then "🔊" else "🔇")) (toggleSound p))))
    with (this (toggleSound p)).
  change (this (update_element "soundToggle"
                  (set_textContent (if soundEnabled (this (toggleSound p))
                                    then "🔊" else "🔇")) (toggleSound p)))
    with (this (toggleSound p)).
  destruct (soundEnabled (this (toggleSound p))); cbn [negb classList_toggle_force].
  - split; [| reflexivity]. split; [| discriminate].
    intros Hin. by apply classList_remove_elem in Hin.
  - split; [| reflexivity]. split; [done |]. intros _. apply classList_add_elem.
Qed.

(** ** Closed examples for the console *)

Lemma theme_survives_reload_witness :
  is_Some (Sample.html !! "themeToggle")
  /\ theme (dispatch (DOMContentLoaded Sample.html 5000 5000 5000) (toggleTheme Sample.opened))
     = theme (toggleTheme Sample.opened).
Proof.
  assert (Hbutton : is_Some (Sample.html !! "themeToggle")) by (eexists; reflexivity).
  split; [exact Hbutton |].
  exact (proj1 (theme_survives_reload Sample.opened Sample.html 5000 5000 5000) Hbutton).
Defined.

Lemma closed_modal_reopens_at_zero_witness :
  let el := {| textContent := ""; classList := ["modal-backdrop"; "open"]; style := ∅ |} in
  getElementById "endShiftModal" Sample.overdue = Some el
  /\ "modal-backdrop" ∈ classList el
  /\ exists el', getElementById "endShiftModal" (closeModal "endShiftModal" Sample.overdue)
                 = Some el' /\ "open" ∉ classList el'.
Proof.
  intros el.
  assert (Hel : getElementById "endShiftModal" Sample.overdue = Some el) by reflexivity.
  assert (Hback : "modal-backdrop" ∈ classList el) by (by apply (bool_decide_unpack _)).
  split; [exact Hel |]. split; [exact Hback |].
  exact (proj1 (closed_modal_reopens_at_zero 28806000 28806000 Sample.overdue el Hel Hback)).
Defined.

Lemma modal_shows_time_on_duty_witness :
  dutyStartTime (this Sample.opened) = Some (Num 0)
  /\ remaining 28800000 (this Sample.opened) = Num 0
  /\ textContent <$> getElementById "modalDutyTime"
                       (updateDutyTimer 28800000 28800500 Sample.opened)
     = Some (Spec.HH_MM_SS (28800500 - 0)).
Proof.
  split; [reflexivity |]. split; [reflexivity |].
  apply (modal_shows_time_on_duty 28800000 28800500 Sample.opened 0 (Sample.element []));
    [reflexivity | reflexivity | reflexivity | lia].
Defined.

Lemma count_increments_witness :
  getElementById ("count-" +:+ "car") (page Desk.console) = Some (Desk.element "12" [])
  /\ textContent <$> getElementById ("count-" +:+ "car")
                       (Nat.iter 3 (incrementVehicleCount "car") (page Desk.console))
     = Some (JS.toString (Num (12 + Z.of_nat 3))).
Proof.
  assert (Hel : getElementById ("count-" +:+ "car") (page Desk.console)
                = Some (Desk.element "12" [])) by reflexivity.
  split; [exact Hel |].
  apply (proj1 (count_increments "car" (page Desk.console) (Desk.element "12" []) 12 3
                  Hel ltac:(lia) ltac:(lia))).
  reflexivity.
Defined.

Lemma label_increments_witness :
  getElementById ("inc-" +:+ "car") (page Desk.console)
  = Some (Desk.element "↑ 3 in last min" [])
  /\ textContent <$> getElementById ("inc-" +:+ "car")
                       (Nat.iter 2 (incrementVehicleCount "car") (page Desk.console))
     = Some ("↑ " +:+ JS.toString (Num (3 + Z.of_nat 2)) +:+ " in last min").
Proof.
  assert (Hel : getElementById ("inc-" +:+ "car") (page Desk.console)
                = Some (Desk.element "↑ 3 in last min" [])) by reflexivity.
  split; [exact Hel |].
  apply (proj1 (label_increments "car" (page Desk.console)
                  (Desk.element "↑ 3 in last min" []) 3 2 Hel ltac:(lia) ltac:(lia))).
  reflexivity.
Defined.

Lemma dropdown_hidden_or_shown_witness :
  getElementById "detectionDropdown" (page Desk.console)
  = Some (Desk.element "" ["dropdown"; "hidden"])
  /\ dropdown_hidden (Desk.element "" ["dropdown"; "hidden"])
  /\ exists el', getElementById "detectionDropdown" (toggleDropdown (page Desk.console))
                 = Some el' /\ dropdown_shown el'.
Proof.
  assert (Hel : getElementById "detectionDropdown" (page Desk.console)
                = Some (Desk.element "" ["dropdown"; "hidden"])) by reflexivity.
  assert (Hhidden : dropdown_hidden (Desk.element "" ["dropdown"; "hidden"])).
  { split; by apply (bool_decide_unpack _). }
  split; [exact Hel |]. split; [exact Hhidden |].
  exact (proj1 (proj2 (dropdown_hidden_or_shown (page Desk.console) _ Hel)) Hhidden).
Defined.

Lemma feed_is_newest_first_witness :
  getElementById "notificationList" (page Desk.console) = Some (Desk.element "" [])
  /\ notif_title <$> notificationList
                       (simulate_all ["exception"; "nope"; "multiple"] Desk.console)
     = ["Multiple Vehicles"; "Exception Granted"].
Proof.
  assert (Hel : getElementById "notificationList" (page Desk.console)
                = Some (Desk.element "" [])) by reflexivity.
  split; [exact Hel |].
  rewrite (feed_is_newest_first ["exception"; "nope"; "multiple"] Desk.console _ Hel).
  reflexivity.
Defined.

Lemma detections_are_counted_witness :
  getElementById "count-car" (page Desk.console) = Some (Desk.element "12" [])
  /\ textContent <$> getElementById "count-car"
                       (page (simulate_all ["exception"; "nope"; "multiple"] Desk.console))
     = Some "14".
Proof.
  assert (Hel : getElementById "count-car" (page Desk.console)
                = Some (Desk.element "12" [])) by reflexivity.
  split; [exact Hel |].
  rewrite (detections_are_counted ["exception"; "nope"; "multiple"] Desk.console
             (Desk.element "12" []) 12 Hel eq_refl ltac:(lia) ltac:(vm_compute; discriminate)).
  reflexivity.
Defined.

Lemma popups_have_their_timeouts_witness :
  let c := happenings [ItemClicked "exception"; TimeoutFires 3; ItemClicked "multiple"]
             Desk.console in
  popupContainer Desk.console = []
  /\ timeouts Desk.console = ∅
  /\ forall popup, popup ∈ popupContainer c ->
       exists id, timeouts c !! id = Some (awaited popup).
Proof.
  intros c. split; [reflexivity |]. split; [reflexivity |].
  exact (proj1 (popups_have_their_timeouts
                  [ItemClicked "exception"; TimeoutFires 3; ItemClicked "multiple"]
                  Desk.console eq_refl eq_refl)).
Defined.

Lemma sound_button_shows_state_witness :
  getElementById "soundToggle" Sample.opened = Some (Sample.element [])
  /\ soundEnabled (this (clickSoundToggle Sample.opened)) = false.
Proof.
  split; [reflexivity |].
  exact (proj1 (sound_button_shows_state Sample.opened (Sample.element []) eq_refl)).
Defined.
